(** * Commission calculator of the dealership dashboard

    A shallow embedding of [calculateCommissions] from [src/lib/supabase.ts]
    together with the [SaleEntry] record it reads, and the properties the
    specification states about it.

    Numbers.  The TypeScript type [number] is modelled by the rationals [Q]
    with exact arithmetic: sale records arrive as JSON rows, so every number
    is finite, and the calculator only subtracts, divides by 1000, compares
    and takes [Math.floor].  An optional field ([name?: number]) is an
    [option Q]; [None] stands for a field that is undefined (or null in the
    row).

    Double precision.  The source computes with IEEE 754 doubles, whose
    subtraction, division, multiplication and additions round.  Module
    [F64] embeds the calculator a second time over the binary64 floats of
    the kernel; it is evaluated where rounding shows, and the statements
    that rounding can falsify carry the bound under which the operations
    of the source are exact.

    Beyond the calculator the file embeds its caller, the [gridData] of the
    sales grid, and the functions that talk to the hosted service (the
    sharing functions of [src/lib/supabase.ts], the submit handlers of the
    spiff and trade-in forms, [fetchSales], [fetchSpiffs] and
    [handleDelete] of the dashboard) as programs run against an arbitrary
    service. *)

From Stdlib Require Import ZArith QArith Qround Qabs Bool Ascii String List Lia Lqa.
From Stdlib Require PrimFloat SpecFloat FloatOps.
Import ListNotations.

Local Open Scope string_scope.
Local Open Scope Q_scope.

(** ** JavaScript primitives used by the calculator *)

Module JS.

(** [x < y] on numbers. *)
Definition ltb (x y : Q) : bool :=
  (Qnum x * QDen y <? Qnum y * QDen x)%Z.

(** [x > y] on numbers. *)
Definition gtb (x y : Q) : bool := ltb y x.

(** Truthiness of a number: every number but zero. *)
Definition truthy (x : Q) : bool := negb (Qeq_bool x 0).

(** [Math.floor]: the greatest integer not above the argument. *)
Definition Math_floor (x : Q) : Q := inject_Z (Qfloor x).

End JS.

(** ** Data model *)

(** [sale_type: 'New' | 'Used' | 'Trade-In'] *)
Inductive SaleType : Set := New | Used | TradeIn.

Definition SaleType_eqb (a b : SaleType) : bool :=
  match a, b with
  | New, New | Used, Used | TradeIn, TradeIn => true
  | _, _ => false
  end.

(** [shared_status?: 'pending' | 'accepted' | 'rejected'] *)
Inductive SharedStatus : Set := pending | accepted | rejected.

(** [interface SaleEntry] *)
Record SaleEntry : Type := mkSaleEntry {
  id : string;
  user_id : string;
  stock_number : string;
  customer_name : string;
  sale_type : SaleType;
  sale_price : Q;
  accessories_price : option Q;
  warranty_price : option Q;
  warranty_cost : option Q;
  maintenance_price : option Q;
  maintenance_cost : option Q;
  shared_with_email : option string;
  shared_with_id : option string;
  shared_status : option SharedStatus;
  date : string
}.

(** The object literal returned by [calculateCommissions]. *)
Record CommissionBreakdown : Type := mkCommissionBreakdown {
  carCommission : Q;
  accessoriesCommission : Q;
  warrantyCommission : Q;
  maintenanceCommission : Q;
  totalCommission : Q
}.

(** ** The calculator *)

(** [calculateCommissions(sale)].  Each of the four mutable locals of the
    source starts at 0 and is assigned at most once, so each becomes one
    [let] whose fall-through value is 0. *)
Definition calculateCommissions (sale : SaleEntry) : CommissionBreakdown :=
  (* Car commission based on sale price *)
  let carCommission :=
    if JS.ltb (sale_price sale) 10000 then 200
    else if JS.ltb (sale_price sale) 20000 then 300
    else if JS.ltb (sale_price sale) 30000 then 400
    else 500 in
  (* Accessories commission *)
  let accessoriesCommission :=
    match accessories_price sale with
    | Some accessories =>
        if JS.truthy accessories then
          let threshold :=
            if SaleType_eqb (sale_type sale) New then 988 else 488 in
          let eligibleAmount := accessories - threshold in
          if JS.gtb eligibleAmount 800 then 100 else 0
        else 0
    | None => 0
    end in
  (* Warranty commission *)
  let warrantyCommission :=
    match warranty_price sale, warranty_cost sale with
    | Some price, Some cost =>
        if JS.truthy price && JS.truthy cost then
          let profit := price - cost in
          JS.Math_floor (profit / 1000) * 100
        else 0
    | _, _ => 0
    end in
  (* Maintenance commission *)
  let maintenanceCommission :=
    match maintenance_price sale with
    | Some maintenance =>
        if JS.truthy maintenance && JS.gtb maintenance 800 then 100 else 0
    | None => 0
    end in
  let totalCommission :=
    carCommission + accessoriesCommission + warrantyCommission
    + maintenanceCommission in
  {| carCommission := carCommission;
     accessoriesCommission := accessoriesCommission;
     warrantyCommission := warrantyCommission;
     maintenanceCommission := maintenanceCommission;
     totalCommission := totalCommission |}.

(** ** The null-check reading of the optional-field guards

    Follows the specification's open question, not the source: an optional
    field disables its computation only when it is absent, and a zero counts
    as a present value.  Everything else is as in [calculateCommissions]. *)
Definition calculateCommissions_nullcheck (sale : SaleEntry)
  : CommissionBreakdown :=
  let carCommission :=
    if JS.ltb (sale_price sale) 10000 then 200
    else if JS.ltb (sale_price sale) 20000 then 300
    else if JS.ltb (sale_price sale) 30000 then 400
    else 500 in
  let accessoriesCommission :=
    match accessories_price sale with
    | Some accessories =>
        let threshold :=
          if SaleType_eqb (sale_type sale) New then 988 else 488 in
        let eligibleAmount := accessories - threshold in
        if JS.gtb eligibleAmount 800 then 100 else 0
    | None => 0
    end in
  let warrantyCommission :=
    match warranty_price sale, warranty_cost sale with
    | Some price, Some cost =>
        let profit := price - cost in
        JS.Math_floor (profit / 1000) * 100
    | _, _ => 0
    end in
  let maintenanceCommission :=
    match maintenance_price sale with
    | Some maintenance => if JS.gtb maintenance 800 then 100 else 0
    | None => 0
    end in
  let totalCommission :=
    carCommission + accessoriesCommission + warrantyCommission
    + maintenanceCommission in
  {| carCommission := carCommission;
     accessoriesCommission := accessoriesCommission;
     warrantyCommission := warrantyCommission;
     maintenanceCommission := maintenanceCommission;
     totalCommission := totalCommission |}.

(** ** Vocabulary of the statements *)

(** The number is a whole amount. *)
Definition is_integer (x : Q) : Prop := exists n : Z, x == inject_Z n.

(** The number is a whole amount that is not negative. *)
Definition is_nonneg_integer (x : Q) : Prop :=
  exists n : Z, (0 <= n)%Z /\ x == inject_Z n.

(** The number is a whole multiple of 100. *)
Definition is_multiple_of_100 (x : Q) : Prop :=
  exists k : Z, x == inject_Z (100 * k).

(** Two numbers denote the same value. *)
Definition same_number (x y : Q) : Prop := x == y.

(** Two optional numbers are both absent or denote the same value. *)
Definition same_optional (a b : option Q) : Prop :=
  match a, b with
  | Some x, Some y => x == y
  | None, None => True
  | _, _ => False
  end.

(** The entries agree on the six fields the calculator reads. *)
Definition agree_on_read_fields (s1 s2 : SaleEntry) : Prop :=
  same_number (sale_price s1) (sale_price s2) /\
  sale_type s1 = sale_type s2 /\
  same_optional (accessories_price s1) (accessories_price s2) /\
  same_optional (warranty_price s1) (warranty_price s2) /\
  same_optional (warranty_cost s1) (warranty_cost s2) /\
  same_optional (maintenance_price s1) (maintenance_price s2).

(** The accessories threshold as the specification words it. *)
Definition threshold_of (t : SaleType) : Q :=
  match t with
  | New => 988
  | _ => 488
  end.

(** Where the two readings of the warranty guard can part: both fields are
    present, one of them is zero, and the floor of the profit in thousands
    is not zero. *)
Definition warranty_guards_agree (s : SaleEntry) : Prop :=
  match warranty_price s, warranty_cost s with
  | Some price, Some cost =>
      (price == 0 \/ cost == 0) -> Qfloor ((price - cost) / 1000) = 0%Z
  | _, _ => True
  end.

(** The accessories bonus is due: the price is present, is not zero, and
    exceeds the threshold of the sale type by more than 800. *)
Definition accessories_bonus_due (s : SaleEntry) : Prop :=
  exists x : Q,
    accessories_price s = Some x /\ ~ x == 0 /\
    800 < x - threshold_of (sale_type s).

(** The maintenance bonus is due: the price is present and above 800. *)
Definition maintenance_bonus_due (s : SaleEntry) : Prop :=
  exists m : Q, maintenance_price s = Some m /\ 800 < m.

(** The source computes the warranty commission on this entry from the
    given price and cost: both fields are present and neither is zero. *)
Definition warranty_computed (s : SaleEntry) (price cost : Q) : Prop :=
  warranty_price s = Some price /\ warranty_cost s = Some cost /\
  ~ price == 0 /\ ~ cost == 0.

(** Every amount of the breakdown is a non-negative whole number. *)
Definition all_nonneg_integers (b : CommissionBreakdown) : Prop :=
  is_nonneg_integer (carCommission b) /\
  is_nonneg_integer (accessoriesCommission b) /\
  is_nonneg_integer (warrantyCommission b) /\
  is_nonneg_integer (maintenanceCommission b) /\
  is_nonneg_integer (totalCommission b).

(** ** Sample entries *)

(** A used car sold for [price] with no optional field filled in. *)
Definition bare_sale (price : Q) : SaleEntry :=
  {| id := "s-1"; user_id := "u-1"; stock_number := "A100";
     customer_name := "Pat"; sale_type := Used; sale_price := price;
     accessories_price := None; warranty_price := None;
     warranty_cost := None; maintenance_price := None;
     maintenance_cost := None; shared_with_email := None;
     shared_with_id := None; shared_status := None;
     date := "2024-01-15" |}.

(** [bare_sale] with the two warranty fields filled in. *)
Definition warranty_sale (price cost : Q) : SaleEntry :=
  {| id := "s-2"; user_id := "u-1"; stock_number := "A101";
     customer_name := "Pat"; sale_type := Used; sale_price := 15000;
     accessories_price := None; warranty_price := Some price;
     warranty_cost := Some cost; maintenance_price := None;
     maintenance_cost := None; shared_with_email := None;
     shared_with_id := None; shared_status := None;
     date := "2024-01-15" |}.

(** A sale of the given type with only the accessories filled in. *)
Definition accessories_sale (t : SaleType) (accessories : Q) : SaleEntry :=
  {| id := "s-3"; user_id := "u-1"; stock_number := "A102";
     customer_name := "Pat"; sale_type := t; sale_price := 15000;
     accessories_price := Some accessories; warranty_price := None;
     warranty_cost := None; maintenance_price := None;
     maintenance_cost := None; shared_with_email := None;
     shared_with_id := None; shared_status := None;
     date := "2024-01-15" |}.

(** A sale with only the maintenance plan filled in. *)
Definition maintenance_sale (maintenance : Q) : SaleEntry :=
  {| id := "s-4"; user_id := "u-1"; stock_number := "A103";
     customer_name := "Pat"; sale_type := New; sale_price := 15000;
     accessories_price := None; warranty_price := None;
     warranty_cost := None; maintenance_price := Some maintenance;
     maintenance_cost := None; shared_with_email := None;
     shared_with_id := None; shared_status := None;
     date := "2024-01-15" |}.

(** A fully filled-in sale and a second record that differs from it in
    every field the calculator does not read. *)
Definition full_sale : SaleEntry :=
  {| id := "s-5"; user_id := "u-1"; stock_number := "B200";
     customer_name := "Pat"; sale_type := New; sale_price := 25000;
     accessories_price := Some 1889; warranty_price := Some 2500;
     warranty_cost := Some 500; maintenance_price := Some 801;
     maintenance_cost := None; shared_with_email := None;
     shared_with_id := None; shared_status := None;
     date := "2024-01-15" |}.

Definition full_sale_other : SaleEntry :=
  {| id := "s-6"; user_id := "u-2"; stock_number := "C300";
     customer_name := "Sam"; sale_type := New; sale_price := 25000;
     accessories_price := Some 1889; warranty_price := Some 2500;
     warranty_cost := Some 500; maintenance_price := Some 801;
     maintenance_cost := Some 350;
     shared_with_email := Some "sam@example.com";
     shared_with_id := Some "u-9"; shared_status := Some pending;
     date := "2024-02-01" |}.

(** ** The sales grid ([src/components/SalesGrid.tsx])

    Strings.  A JavaScript string is modelled by a Rocq [string]; an
    optional string is truthy when it is present and not empty. *)

(** Truthiness of a string: every string but the empty one. *)
Definition truthy_string (s : string) : bool :=
  match s with
  | EmptyString => false
  | String _ _ => true
  end.

(** Truthiness of an optional string ([!!x]). *)
Definition truthy_optional_string (o : option string) : bool :=
  match o with
  | Some s => truthy_string s
  | None => false
  end.

(** The text of a [sale_type] literal. *)
Definition SaleType_text (t : SaleType) : string :=
  match t with
  | New => "New"
  | Used => "Used"
  | TradeIn => "Trade-In"
  end.

Module Spiff.

(** [interface SpiffEntry] *)
Record SpiffEntry : Type := mkSpiffEntry {
  id : string;
  user_id : string;
  amount : Q;
  note : option string;
  image_url : option string;
  date : string
}.

End Spiff.

Module Grid.

(** [type GridRow] *)
Record GridRow : Type := mkGridRow {
  id : string;
  date : string;
  stock_number : option string;
  customer_name : option string;
  type : string;
  carCommission : Q;
  accessoriesCommission : Q;
  warrantyCommission : Q;
  maintenanceCommission : Q;
  totalCommission : Q;
  shared : bool;
  shared_with_email : option string;
  isSpiff : bool;
  originalData : SaleEntry + Spiff.SpiffEntry
}.

End Grid.

(** The row pushed for one sale (body of the first [forEach]). *)
Definition sale_row (sale : SaleEntry) : Grid.GridRow :=
  let commissions := calculateCommissions sale in
  {| Grid.id := id sale;
     Grid.date := date sale;
     Grid.stock_number := Some (stock_number sale);
     Grid.customer_name := Some (customer_name sale);
     Grid.type := SaleType_text (sale_type sale);
     Grid.carCommission := carCommission commissions;
     Grid.accessoriesCommission := accessoriesCommission commissions;
     Grid.warrantyCommission := warrantyCommission commissions;
     Grid.maintenanceCommission := maintenanceCommission commissions;
     Grid.totalCommission := totalCommission commissions;
     Grid.shared := truthy_optional_string (shared_with_email sale);
     Grid.shared_with_email := shared_with_email sale;
     Grid.isSpiff := false;
     Grid.originalData := inl sale |}.

(** The row pushed for one spiff (body of the second [forEach]). *)
Definition spiff_row (spiff : Spiff.SpiffEntry) : Grid.GridRow :=
  {| Grid.id := Spiff.id spiff;
     Grid.date := Spiff.date spiff;
     Grid.stock_number := None;
     Grid.customer_name := None;
     Grid.type := "Spiff";
     Grid.carCommission := 0;
     Grid.accessoriesCommission := 0;
     Grid.warrantyCommission := 0;
     Grid.maintenanceCommission := 0;
     Grid.totalCommission := Spiff.amount spiff;
     Grid.shared := false;
     Grid.shared_with_email := None;
     Grid.isSpiff := true;
     Grid.originalData := inr spiff |}.

(** [data.push(row)] on the array built so far. *)
Definition push {A : Type} (data : list A) (row : A) : list A :=
  (data ++ [row])%list.

(** [gridData]: the array starts empty, the first loop pushes a row per
    sale and the second a row per spiff. *)
Definition gridData (sales : list SaleEntry) (spiffs : list Spiff.SpiffEntry)
  : list Grid.GridRow :=
  let data := [] in
  let data := fold_left (fun data sale => push data (sale_row sale))
                        sales data in
  let data := fold_left (fun data spiff => push data (spiff_row spiff))
                        spiffs data in
  data.

(** ** Calls to the hosted service, as programs

    The asynchronous functions are modelled as finite programs that issue
    requests, perform effects on the page, return or throw.  What the
    service answers is not fixed: a [Service] is any function from a request
    and a state of the world to a settled promise and a next state, and
    every theorem below holds for every service. *)

(** A thrown value: the [error] object of a response, [new Error(message)],
    or a [TypeError] raised by the engine. *)
Inductive exn : Type :=
| ServiceError (message : string)
| JsError (message : string)
| TypeError (message : string).

(** [error.message] *)
Definition message (e : exn) : string :=
  match e with
  | ServiceError m | JsError m | TypeError m => m
  end.

(** The object [{ data, error }] a query resolves to. *)
Record Response (D : Type) : Type := mkResponse {
  data : option D;
  error : option exn
}.

Arguments mkResponse {D} _ _.
Arguments data {D} _.
Arguments error {D} _.

(** An awaited promise either fulfils with a response or rejects. *)
Inductive Settled (D : Type) : Type :=
| Fulfilled (r : Response D)
| Rejected (e : exn).

Arguments Fulfilled {D} _.
Arguments Rejected {D} _.

Module Notification.

(** A row of the [notifications] table, with the columns the source
    names. *)
Record Row : Type := mkRow {
  id : string;
  user_id : string;
  sale_id : string;
  type : string;
  read : bool;
  created_at : string
}.

End Notification.

(** What is deleted by [handleDelete]: [type: 'sale' | 'spiff']. *)
Inductive ItemKind : Set := kind_sale | kind_spiff.

(** The queries the source builds, each with the values it passes. *)
Inductive Request : Type :=
(* from('users').select('id').eq('email', email).single() *)
| users_select_id (email : string)
(* rpc('get_user_id_from_email', { email_address }) *)
| rpc_get_user_id_from_email (email_address : string)
(* from('sales').update({ shared_with_email, shared_with_id,
   shared_status }).eq('id', saleId) *)
| sales_update_shared (saleId shared_with_email shared_with_id : string)
                      (shared_status : SharedStatus)
(* from('sales').update({ shared_status }).eq('id', saleId) *)
| sales_update_status (saleId : string) (shared_status : SharedStatus)
(* from('notifications').insert({ user_id, sale_id, type }) *)
| notifications_insert (user_id sale_id type : string)
(* from('notifications').select(...).eq('user_id', userId)
   .eq('read', false).order('created_at', { ascending: false }) *)
| notifications_select_unread (userId : string)
(* from('notifications').update({ read: true }).eq('id', notificationId) *)
| notifications_update_read (notificationId : string)
(* from('spiffs').insert([{ user_id, amount: Number(amount), note,
   image_url, date }]) *)
| spiffs_insert (user_id : option string)
                (amount note image_url date : string)
(* from('sales').update({ trade_in_commission: Number(amount) })
   .eq('id', id) *)
| sales_update_trade_in (id amount : string)
(* from(table).delete().eq('id', id) *)
| table_delete (table id : string)
(* from('sales').select('*').eq('user_id', userId).gte('date', startDate)
   .lte('date', endDate).order('date', { ascending: false }) *)
| sales_select_month (userId startDate endDate : string)
(* the same query on 'spiffs' *)
| spiffs_select_month (userId startDate endDate : string).

(** The type of [data] in the response to each request. *)
Definition reply_type (r : Request) : Type :=
  match r with
  | users_select_id _ => string
  | rpc_get_user_id_from_email _ => string
  | notifications_select_unread _ => list Notification.Row
  | sales_select_month _ _ _ => list SaleEntry
  | spiffs_select_month _ _ _ => list Spiff.SpiffEntry
  | _ => unit
  end.

(** Effects on the console, the toasts, the component state and the
    callbacks of the component. *)
Inductive Effect : Type :=
| console_error (label : string) (e : exn)
| toast_error (text : string)
| toast_success (text : string)
| preventDefault
| setIsSubmitting (b : bool)
| setLoading (b : bool)
| setSales (rows : list SaleEntry)
| setSpiffs (rows : list Spiff.SpiffEntry)
| onSpiffAdded
| onTradeInAdded
| onClose.

(** Programs. *)
Inductive prog (A : Type) : Type :=
| Ret (a : A)
| Throw (e : exn)
| Call (r : Request) (k : Settled (reply_type r) -> prog A)
| Confirm (question : string) (k : bool -> prog A)
| Do (e : Effect) (k : prog A).

Arguments Ret {A} _.
Arguments Throw {A} _.
Arguments Call {A} _ _.
Arguments Confirm {A} _ _.
Arguments Do {A} _ _.

Fixpoint bind {A B : Type} (p : prog A) (f : A -> prog B) : prog B :=
  match p with
  | Ret a => f a
  | Throw e => Throw e
  | Call r k => Call r (fun x => bind (k x) f)
  | Confirm q k => Confirm q (fun b => bind (k b) f)
  | Do e k => Do e (bind k f)
  end.

Notation "x <- p ;; q" := (bind p (fun x => q))
  (at level 61, p at next level, right associativity).
Notation "p ;; q" := (bind p (fun _ => q))
  (at level 61, right associativity).

(** [await request]: a rejection is thrown at the [await]. *)
Definition await (r : Request) : prog (Response (reply_type r)) :=
  Call r (fun s =>
    match s with
    | Fulfilled x => Ret x
    | Rejected e => Throw e
    end).

(** A statement executed for its effect. *)
Definition perform (e : Effect) : prog unit := Do e (Ret tt).

(** [window.confirm(question)] *)
Definition window_confirm (question : string) : prog bool :=
  Confirm question (fun b => Ret b).

(** [try { p } catch (error) { h error }] *)
Fixpoint try_catch {A : Type} (p : prog A) (h : exn -> prog A) : prog A :=
  match p with
  | Ret a => Ret a
  | Throw e => h e
  | Call r k => Call r (fun x => try_catch (k x) h)
  | Confirm q k => Confirm q (fun b => try_catch (k b) h)
  | Do e k => Do e (try_catch k h)
  end.

(** [try { p } finally { f }]: [f] runs on both exits and the exit of [p]
    is kept. *)
Fixpoint try_finally {A : Type} (p : prog A) (f : prog unit) : prog A :=
  match p with
  | Ret a => f ;; Ret a
  | Throw e => f ;; Throw e
  | Call r k => Call r (fun x => try_finally (k x) f)
  | Confirm q k => Confirm q (fun b => try_finally (k b) f)
  | Do e k => Do e (try_finally k f)
  end.

(** What an observer sees of a run, in order. *)
Inductive Event : Type :=
| Requested (r : Request)
| Asked (question : string)
| Did (e : Effect).

Inductive Outcome (A : Type) : Type :=
| Returned (a : A)
| Threw (e : exn).

Arguments Returned {A} _.
Arguments Threw {A} _.

(** A service and a user: how a world answers a request and a
    confirmation dialog. *)
Record Service : Type := mkService {
  World : Type;
  serve : forall r : Request, World -> Settled (reply_type r) * World;
  answer : string -> World -> bool * World
}.

(** Running a program against a service. *)
Fixpoint run {A : Type} (S : Service) (p : prog A) (w : World S)
  : Outcome A * list Event * World S :=
  match p with
  | Ret a => (Returned a, [], w)
  | Throw e => (Threw e, [], w)
  | Call r k =>
      let (x, w1) := serve S r w in
      let '(o, t, w2) := run S (k x) w1 in
      (o, Requested r :: t, w2)
  | Confirm q k =>
      let (b, w1) := answer S q w in
      let '(o, t, w2) := run S (k b) w1 in
      (o, Asked q :: t, w2)
  | Do e k =>
      let '(o, t, w2) := run S k w in
      (o, Did e :: t, w2)
  end.

Definition outcome {A : Type} (S : Service) (p : prog A) (w : World S)
  : Outcome A := fst (fst (run S p w)).

Definition trace {A : Type} (S : Service) (p : prog A) (w : World S)
  : list Event := snd (fst (run S p w)).

(** The requests of a trace, in order. *)
Definition requests (t : list Event) : list Request :=
  flat_map (fun ev => match ev with Requested r => [r] | _ => [] end) t.

(** The effects of a trace, in order. *)
Definition effects (t : list Event) : list Effect :=
  flat_map (fun ev => match ev with Did e => [e] | _ => [] end) t.

(** ** The service functions of [src/lib/supabase.ts] *)

(** [x || null] on an optional string. *)
Definition or_null (o : option string) : option string :=
  match o with
  | Some s => if truthy_string s then Some s else None
  | None => None
  end.

(** The object [{ success: true }]. *)
Record Success : Type := mkSuccess { success : bool }.

(** [getUserIdFromEmail(email)] *)
Definition getUserIdFromEmail (email : string) : prog (option string) :=
  try_catch
    (r <- await (users_select_id email) ;;
     match error r with
     | Some userError =>
         a <- await (rpc_get_user_id_from_email email) ;;
         match error a with
         | Some authError => Throw authError
         | None => Ret (or_null (data a))
         end
     | None => Ret (or_null (data r))
     end)
    (fun e =>
       perform (console_error "Error getting user ID from email:" e) ;;
       Ret None).

(** [shareSale(saleId, recipientEmail)] *)
Definition shareSale (saleId recipientEmail : string) : prog Success :=
  try_catch
    ((* First, get the recipient's user ID *)
     r <- await (users_select_id recipientEmail) ;;
     match error r, data r with
     | None, Some recipient_id =>
         (* Update the sale with shared information *)
         u <- await (sales_update_shared saleId recipientEmail recipient_id
                       pending) ;;
         match error u with
         | Some saleError => Throw saleError
         | None =>
             (* Create notification *)
             n <- await (notifications_insert recipient_id saleId
                           "shared_sale_pending") ;;
             match error n with
             | Some notificationError => Throw notificationError
             | None => Ret {| success := true |}
             end
         end
     | _, _ => Throw (JsError "Recipient not found")
     end)
    (fun e => perform (console_error "Error sharing sale:" e) ;; Throw e).

(** [respondToSharedSale(saleId, response)]; the type of [response]
    allows 'accepted' and 'rejected' only. *)
Inductive SharedResponse : Set := respond_accepted | respond_rejected.

Definition SharedResponse_status (r : SharedResponse) : SharedStatus :=
  match r with
  | respond_accepted => accepted
  | respond_rejected => rejected
  end.

Definition respondToSharedSale (saleId : string) (response : SharedResponse)
  : prog Success :=
  try_catch
    (u <- await (sales_update_status saleId
                   (SharedResponse_status response)) ;;
     match error u with
     | Some saleError => Throw saleError
     | None => Ret {| success := true |}
     end)
    (fun e =>
       perform (console_error "Error responding to shared sale:" e) ;;
       Throw e).

(** [getSharedSaleNotifications(userId)] *)
Definition getSharedSaleNotifications (userId : string)
  : prog (list Notification.Row) :=
  try_catch
    (r <- await (notifications_select_unread userId) ;;
     match error r with
     | Some e => Throw e
     | None =>
         Ret (match data r with Some rows => rows | None => [] end)
     end)
    (fun e =>
       perform (console_error "Error fetching notifications:" e) ;;
       Throw e).

(** [markNotificationAsRead(notificationId)] *)
Definition markNotificationAsRead (notificationId : string) : prog Success :=
  try_catch
    (u <- await (notifications_update_read notificationId) ;;
     match error u with
     | Some e => Throw e
     | None => Ret {| success := true |}
     end)
    (fun e =>
       perform (console_error "Error marking notification as read:" e) ;;
       Throw e).

(** ** Form handlers and dashboard actions *)

(** [s.split(sep)] for a one-character separator: the pieces between the
    occurrences of [sep], of which there is always at least one. *)
Fixpoint split (sep : ascii) (s : string) : list string :=
  match s with
  | EmptyString => [EmptyString]
  | String c rest =>
      if Ascii.eqb c sep then EmptyString :: split sep rest
      else
        match split sep rest with
        | piece :: pieces => String c piece :: pieces
        | [] => [String c EmptyString]
        end
  end.

(** [pieces.join(sep)] *)
Fixpoint join (sep : ascii) (pieces : list string) : string :=
  match pieces with
  | [] => EmptyString
  | [piece] => piece
  | piece :: more => (piece ++ String sep (join sep more))%string
  end.

(** The number of occurrences of a character in a string. *)
Fixpoint occurrences (c : ascii) (s : string) : nat :=
  match s with
  | EmptyString => O
  | String d rest =>
      if Ascii.eqb d c then S (occurrences c rest) else occurrences c rest
  end.

(** [error.message || fallback] *)
Definition message_or (e : exn) (fallback : string) : string :=
  if truthy_string (message e) then message e else fallback.

(** [handleSubmit] of the spiff form ([src/components/SpiffForm.tsx]), on
    the state of the form: [user_id] is [session?.user.id], and the request
    carries the text of the amount, which the source converts with
    [Number]. *)
Definition SpiffForm_handleSubmit (user_id : option string)
    (amount note imageUrl date : string) : prog unit :=
  perform preventDefault ;;
  if negb (truthy_string amount) || negb (truthy_string date) then
    perform (toast_error "Amount and date are required")
  else if truthy_string note
          && (40 <? List.length (split " " note))%nat then
    perform (toast_error "Note cannot exceed 40 words")
  else
    perform (setIsSubmitting true) ;;
    try_finally
      (try_catch
         (r <- await (spiffs_insert user_id amount note imageUrl date) ;;
          match error r with
          | Some e => Throw e
          | None =>
              perform (toast_success "Spiff bonus added successfully") ;;
              perform onSpiffAdded ;;
              perform onClose
          end)
         (fun e =>
            perform (console_error "Error adding spiff bonus:" e) ;;
            perform (toast_error
                       (message_or e "Error adding spiff bonus"))))
      (perform (setIsSubmitting false)).

(** [handleSubmit] of the trade-in form
    ([src/components/TradeInForm.tsx]).  [editSale] is the id of the sale
    being edited, absent when the form is opened for a new sale; reading
    [editSale.id] then raises a [TypeError] whose text is the engine's. *)
Definition TradeInForm_handleSubmit (engine_text : string)
    (editSale : option string) (amount : string) : prog unit :=
  perform preventDefault ;;
  if negb (truthy_string amount) then
    perform (toast_error "Please enter an amount")
  else
    perform (setIsSubmitting true) ;;
    try_finally
      (try_catch
         (match editSale with
          | None => Throw (TypeError engine_text)
          | Some id =>
              r <- await (sales_update_trade_in id amount) ;;
              match error r with
              | Some e => Throw e
              | None =>
                  perform (toast_success
                             "Trade-in commission updated successfully") ;;
                  perform onTradeInAdded ;;
                  perform onClose
              end
          end)
         (fun e =>
            perform (console_error "Error updating trade-in commission:"
                       e) ;;
            perform (toast_error
                       (message_or e
                          "Error updating trade-in commission"))))
      (perform (setIsSubmitting false)).

(** [fetchSales] of the dashboard ([src/pages/Dashboard.tsx]);
    [session_user_id] is [session?.user?.id], and the two dates are the
    formatted first and last day of the month on display. *)
Definition fetchSales (session_user_id : option string)
    (startDate endDate : string) : prog unit :=
  match or_null session_user_id with
  | None => Ret tt
  | Some user =>
      try_finally
        (try_catch
           (r <- await (sales_select_month user startDate endDate) ;;
            match error r with
            | Some e => Throw e
            | None =>
                perform (setSales
                           (match data r with
                            | Some rows => rows
                            | None => []
                            end))
            end)
           (fun e =>
              perform (console_error "Error fetching sales data:" e) ;;
              perform (toast_error "Error fetching sales data")))
        (perform (setLoading false))
  end.

(** [fetchSpiffs] of the dashboard. *)
Definition fetchSpiffs (session_user_id : option string)
    (startDate endDate : string) : prog unit :=
  match or_null session_user_id with
  | None => Ret tt
  | Some user =>
      try_catch
        (r <- await (spiffs_select_month user startDate endDate) ;;
         match error r with
         | Some e => Throw e
         | None =>
             perform (setSpiffs
                        (match data r with
                         | Some rows => rows
                         | None => []
                         end))
         end)
        (fun e =>
           perform (console_error "Error fetching spiffs data:" e) ;;
           perform (toast_error "Error fetching spiffs data"))
  end.

(** The text of an item kind inside the template strings. *)
Definition ItemKind_text (k : ItemKind) : string :=
  match k with
  | kind_sale => "sale"
  | kind_spiff => "spiff"
  end.

(** [handleDelete(id, type)] of the dashboard, with the session and the
    month the component holds. *)
Definition handleDelete (session_user_id : option string)
    (startDate endDate : string) (id : string) (type : ItemKind)
  : prog unit :=
  confirmed <- window_confirm
    ("Are you sure you want to delete this " ++ ItemKind_text type ++ "?")
    ;;
  if negb confirmed then Ret tt
  else
    try_catch
      (r <- await (table_delete
                     (match type with
                      | kind_sale => "sales"
                      | kind_spiff => "spiffs"
                      end) id) ;;
       match error r with
       | Some e => Throw e
       | None =>
           perform (toast_success
                      ((match type with
                        | kind_sale => "Sale"
                        | kind_spiff => "Spiff"
                        end) ++ " deleted successfully")) ;;
           match type with
           | kind_sale => fetchSales session_user_id startDate endDate
           | kind_spiff => fetchSpiffs session_user_id startDate endDate
           end
       end)
      (fun e =>
         perform (console_error
                    ("Error deleting " ++ ItemKind_text type ++ ":") e) ;;
         perform (toast_error ("Error deleting " ++ ItemKind_text type))).

(** ** Sample services *)

(** A service on which every request succeeds: a lookup finds the user
    "u-9", a select finds no row, and the user confirms every dialog. *)
Definition service_ok : Service :=
  {| World := unit;
     serve := fun r w =>
       (match r as r0 return Settled (reply_type r0) with
        | users_select_id _ => Fulfilled (mkResponse (Some "u-9") None)
        | rpc_get_user_id_from_email _ =>
            Fulfilled (mkResponse (Some "u-9") None)
        | notifications_select_unread _ => Fulfilled (mkResponse None None)
        | sales_select_month _ _ _ => Fulfilled (mkResponse None None)
        | spiffs_select_month _ _ _ => Fulfilled (mkResponse None None)
        | sales_update_shared _ _ _ _ => Fulfilled (mkResponse None None)
        | sales_update_status _ _ => Fulfilled (mkResponse None None)
        | notifications_insert _ _ _ => Fulfilled (mkResponse None None)
        | notifications_update_read _ => Fulfilled (mkResponse None None)
        | spiffs_insert _ _ _ _ _ => Fulfilled (mkResponse None None)
        | sales_update_trade_in _ _ => Fulfilled (mkResponse None None)
        | table_delete _ _ => Fulfilled (mkResponse None None)
        end, w);
     answer := fun _ w => (true, w) |}.

(** A service that answers every request with the error "denied", and a
    user who cancels every dialog. *)
Definition service_denied : Service :=
  {| World := unit;
     serve := fun r w =>
       (match r as r0 return Settled (reply_type r0) with
        | users_select_id _ =>
            Fulfilled (mkResponse None (Some (ServiceError "denied")))
        | rpc_get_user_id_from_email _ =>
            Fulfilled (mkResponse None (Some (ServiceError "denied")))
        | notifications_select_unread _ =>
            Fulfilled (mkResponse None (Some (ServiceError "denied")))
        | sales_select_month _ _ _ =>
            Fulfilled (mkResponse None (Some (ServiceError "denied")))
        | spiffs_select_month _ _ _ =>
            Fulfilled (mkResponse None (Some (ServiceError "denied")))
        | sales_update_shared _ _ _ _ =>
            Fulfilled (mkResponse None (Some (ServiceError "denied")))
        | sales_update_status _ _ =>
            Fulfilled (mkResponse None (Some (ServiceError "denied")))
        | notifications_insert _ _ _ =>
            Fulfilled (mkResponse None (Some (ServiceError "denied")))
        | notifications_update_read _ =>
            Fulfilled (mkResponse None (Some (ServiceError "denied")))
        | spiffs_insert _ _ _ _ _ =>
            Fulfilled (mkResponse None (Some (ServiceError "denied")))
        | sales_update_trade_in _ _ =>
            Fulfilled (mkResponse None (Some (ServiceError "denied")))
        | table_delete _ _ =>
            Fulfilled (mkResponse None (Some (ServiceError "denied")))
        end, w);
     answer := fun _ w => (false, w) |}.

(** A spiff of 150. *)
Definition sample_spiff : Spiff.SpiffEntry :=
  {| Spiff.id := "p-1"; Spiff.user_id := "u-1"; Spiff.amount := 150;
     Spiff.note := None; Spiff.image_url := None;
     Spiff.date := "2024-01-20" |}.

(** ** Vocabulary for the answers of the service *)

(** The promise fulfilled with a response that carries no error. *)
Definition succeeded {D : Type} (s : Settled D) : bool :=
  match s with
  | Fulfilled r => match error r with None => true | Some _ => false end
  | Rejected _ => false
  end.

(** The promise fulfilled with a response that carries an error. *)
Definition errored {D : Type} (s : Settled D) : bool :=
  match s with
  | Fulfilled r => match error r with None => false | Some _ => true end
  | Rejected _ => false
  end.

(** What [await] followed by [if (error) throw error] throws on this
    answer, if anything. *)
Definition failure {D : Type} (s : Settled D) : option exn :=
  match s with
  | Fulfilled r => error r
  | Rejected e => Some e
  end.

(** The [data] of the answer when the promise fulfilled. *)
Definition payload {D : Type} (s : Settled D) : option D :=
  match s with
  | Fulfilled r => data r
  | Rejected _ => None
  end.

(** [service_ok], except that inserting a notification answers with the
    error "no insert". *)
Definition service_no_notifications : Service :=
  {| World := unit;
     serve := fun r w =>
       (match r as r0 return Settled (reply_type r0) with
        | notifications_insert _ _ _ =>
            Fulfilled (mkResponse None (Some (ServiceError "no insert")))
        | r0 => fst (serve service_ok r0 tt)
        end, w);
     answer := fun _ w => (true, w) |}.

(** ** The calculator in double precision

    [calculateCommissions] above computes with exact rationals.  A
    JavaScript number is an IEEE 754 binary64 value, and the subtraction,
    the division, the multiplication and the additions of the source round
    their results.  This module embeds the same function over the
    binary64 floats of the kernel, operation by operation, so that it can be
    evaluated where rounding shows. *)

Module F64.

Import PrimFloat SpecFloat FloatOps.

(** A JavaScript number. *)
Definition number : Set := float.

(** [x < y] and [x > y]; both are false when either side is NaN. *)
Definition ltb (x y : number) : bool := PrimFloat.ltb x y.

Definition gtb (x y : number) : bool := PrimFloat.ltb y x.

(** Truthiness of a number: every number but 0, -0 and NaN. *)
Definition truthy (x : number) : bool := negb (is_zero x || is_nan x).

(** The float of an integer of magnitude below 2^53, which it holds
    exactly; [negative] picks the sign of a zero. *)
Definition of_integer (negative : bool) (z : Z) : number :=
  match z with
  | Z0 => if negative then neg_zero else zero
  | Zpos p => SF2Prim (S754_finite false p 0)
  | Zneg p => SF2Prim (S754_finite true p 0)
  end.

(** [Math.floor]: a finite number is [+-m * 2^e] with [m < 2^53]; with
    [e >= 0] it is an integer already, and otherwise its floor is the
    integer quotient, rounded down, of [+-m] by [2^-e].  Zeros, infinities
    and NaN are returned as they are. *)
Definition Math_floor (x : number) : number :=
  match Prim2SF x with
  | S754_finite s m (Zneg p) =>
      of_integer s ((if s then Zneg m else Zpos m) / 2 ^ Zpos p)
  | _ => x
  end.

(** The rational a finite number denotes, in lowest terms. *)
Definition exact (x : number) : option Q :=
  match Prim2SF x with
  | S754_zero _ => Some 0
  | S754_finite s m e =>
      let n := if s then Zneg m else Zpos m in
      Some (Qred (match e with
                  | Z0 => inject_Z n
                  | Zpos p => inject_Z (n * 2 ^ Zpos p)
                  | Zneg p => Qmake n (2 ^ p)
                  end))
  | _ => None
  end.

(** [interface SaleEntry] *)
Record SaleEntry : Type := mkSaleEntry {
  id : string;
  user_id : string;
  stock_number : string;
  customer_name : string;
  sale_type : SaleType;
  sale_price : number;
  accessories_price : option number;
  warranty_price : option number;
  warranty_cost : option number;
  maintenance_price : option number;
  maintenance_cost : option number;
  shared_with_email : option string;
  shared_with_id : option string;
  shared_status : option SharedStatus;
  date : string
}.

(** The object literal returned by [calculateCommissions]. *)
Record CommissionBreakdown : Type := mkCommissionBreakdown {
  carCommission : number;
  accessoriesCommission : number;
  warrantyCommission : number;
  maintenanceCommission : number;
  totalCommission : number
}.

Local Open Scope float_scope.

(** [calculateCommissions(sale)] *)
Definition calculateCommissions (sale : SaleEntry) : CommissionBreakdown :=
  (* Car commission based on sale price *)
  let carCommission :=
    if ltb (sale_price sale) 10000 then 200
    else if ltb (sale_price sale) 20000 then 300
    else if ltb (sale_price sale) 30000 then 400
    else 500 in
  (* Accessories commission *)
  let accessoriesCommission :=
    match accessories_price sale with
    | Some accessories =>
        if truthy accessories then
          let threshold :=
            if SaleType_eqb (sale_type sale) New then 988 else 488 in
          let eligibleAmount := accessories - threshold in
          if gtb eligibleAmount 800 then 100 else 0
        else 0
    | None => 0
    end in
  (* Warranty commission *)
  let warrantyCommission :=
    match warranty_price sale, warranty_cost sale with
    | Some price, Some cost =>
        if truthy price && truthy cost then
          let profit := price - cost in
          Math_floor (profit / 1000) * 100
        else 0
    | _, _ => 0
    end in
  (* Maintenance commission *)
  let maintenanceCommission :=
    match maintenance_price sale with
    | Some maintenance =>
        if truthy maintenance && gtb maintenance 800 then 100 else 0
    | None => 0
    end in
  let totalCommission :=
    carCommission + accessoriesCommission + warrantyCommission
    + maintenanceCommission in
  {| carCommission := carCommission;
     accessoriesCommission := accessoriesCommission;
     warrantyCommission := warrantyCommission;
     maintenanceCommission := maintenanceCommission;
     totalCommission := totalCommission |}.

(** A used car sold for 15000 with only the two warranty fields filled
    in. *)
Definition warranty_sale (price cost : number) : SaleEntry :=
  {| id := "s-2"; user_id := "u-1"; stock_number := "A101";
     customer_name := "Pat"; sale_type := Used; sale_price := 15000;
     accessories_price := None; warranty_price := Some price;
     warranty_cost := Some cost; maintenance_price := None;
     maintenance_cost := None; shared_with_email := None;
     shared_with_id := None; shared_status := None;
     date := "2024-01-15" |}.

(** The doubles nearest to 1000.15 and to 0.15. *)
Definition d_1000_15 : number := 0x1.f413333333333p+9.

Definition d_0_15 : number := 0x1.3333333333333p-3.

(** Small whole amounts. *)
Definition d_1 : number := 1.

Definition d_500 : number := 500.

Definition d_1000 : number := 1000.

Definition d_2500 : number := 2500.

(** A whole amount just below 2^53. *)
Definition d_9007199254740000 : number := 9007199254740000.

(** 10^21, and the double nearest to 9007199254740991000. *)
Definition d_1e21 : number := 1e21.

Definition d_9007199254740991000 : number := 0x1.f3fffffffffffp+62.

Local Close Scope float_scope.

(** The five amounts of a breakdown as rationals, when all are finite. *)
Definition exact_breakdown (b : CommissionBreakdown)
  : option (Q * Q * Q * Q * Q) :=
  match exact (carCommission b), exact (accessoriesCommission b),
        exact (warrantyCommission b), exact (maintenanceCommission b),
        exact (totalCommission b) with
  | Some c, Some a, Some w, Some m, Some t => Some (c, a, w, m, t)
  | _, _, _, _, _ => None
  end.

(** The total is the sum, taken exactly, of the four components. *)
Definition total_is_exact_sum (b : CommissionBreakdown) : Prop :=
  match exact_breakdown b with
  | Some (c, a, w, m, t) => t == c + a + w + m
  | None => False
  end.

(** The warranty component is the floor, taken exactly, of a thousandth of
    the profit, times 100. *)
Definition warranty_is_exact_floor (price cost : number)
    (b : CommissionBreakdown) : Prop :=
  match exact price, exact cost, exact (warrantyCommission b) with
  | Some p, Some c, Some w => w == inject_Z (Qfloor ((p - c) / 1000)) * 100
  | _, _, _ => False
  end.

End F64.

(** ** Where double precision is exact *)

(** The five amounts of a breakdown of the exact calculator, in lowest
    terms, for comparison with [F64.exact_breakdown]. *)
Definition amounts (b : CommissionBreakdown) : Q * Q * Q * Q * Q :=
  (Qred (carCommission b), Qred (accessoriesCommission b),
   Qred (warrantyCommission b), Qred (maintenanceCommission b),
   Qred (totalCommission b)).

(** Both calculators return the same five amounts on the whole warranty
    price [p] and cost [c]. *)
Definition agree_on_whole (p c : Z) : bool :=
  match F64.exact_breakdown
          (F64.calculateCommissions
             (F64.warranty_sale (F64.of_integer false p)
                (F64.of_integer false c))) with
  | Some (car, acc, war, mnt, tot) =>
      let '(car', acc', war', mnt', tot') :=
        amounts (calculateCommissions
                   (warranty_sale (inject_Z p) (inject_Z c))) in
      Qeq_bool car car' && Qeq_bool acc acc' && Qeq_bool war war'
      && Qeq_bool mnt mnt' && Qeq_bool tot tot'
  | None => false
  end.

(** Whole prices and costs whose profit sits at the bound 2^53, next to a
    multiple of 1000, at a change of binade of the quotient, or is small. *)
Definition whole_samples : list (Z * Z) :=
  [(9007199254740987, -5); (-5, 9007199254740987);
   (9007199254739999, -1); (9007199254739000, -999);
   (9007199254739001, 1); (1, 9007199254739001);
   (8796093022208000, 1); (8796093022207999, -1); (1, 8796093022208001);
   (4503599627370496, -4503599627370496);
   (-4503599627370496, 4503599627370496);
   (999, -1); (1, 1001); (1, 1000); (1, 2); (2, 1); (1000, 1); (1001, 1);
   (123456789012345, 987654321)]%Z.

(** The largest magnitude of a warranty commission for which it and the
    additions of the total are exact in double precision:
    2^53 - 700. *)
Definition exact_commission_bound : Q := 9007199254740292.

(** The profit [price - cost] is a whole number of magnitude at most 2^53;
    the subtraction of the two doubles is then exact. *)
Definition whole_profit (price cost : Q) : Prop :=
  exists d : Z, price - cost == inject_Z d /\ (Z.abs d <= 2 ^ 53)%Z.

(** ** Sanity checks on the specification's worked examples *)

Example warranty_2500_500 :
  warrantyCommission (calculateCommissions (warranty_sale 2500 500)) = 200.
Proof. reflexivity. Qed.

Example warranty_500_1000 :
  warrantyCommission (calculateCommissions (warranty_sale 500 1000)) = -100.
Proof. reflexivity. Qed.

Example accessories_new_1889 :
  accessoriesCommission (calculateCommissions (accessories_sale New 1889)) = 100.
Proof. reflexivity. Qed.

Example accessories_new_1788 :
  accessoriesCommission (calculateCommissions (accessories_sale New 1788)) = 0.
Proof. reflexivity. Qed.

Example full_sale_breakdown :
  calculateCommissions full_sale =
  {| carCommission := 400; accessoriesCommission := 100;
     warrantyCommission := 200; maintenanceCommission := 100;
     totalCommission := 800 |}.
Proof. reflexivity. Qed.

(** ** The JavaScript primitives meet their meaning *)

Lemma ltb_lt (x y : Q) : JS.ltb x y = true <-> x < y.
Proof. unfold JS.ltb, Qlt. apply Z.ltb_lt. Qed.

Lemma ltb_ge (x y : Q) : JS.ltb x y = false <-> y <= x.
Proof. unfold JS.ltb, Qle. apply Z.ltb_ge. Qed.

Lemma gtb_gt (x y : Q) : JS.gtb x y = true <-> y < x.
Proof. apply ltb_lt. Qed.

Lemma gtb_le (x y : Q) : JS.gtb x y = false <-> x <= y.
Proof. apply ltb_ge. Qed.

Lemma truthy_nonzero (x : Q) : JS.truthy x = true <-> ~ x == 0.
Proof.
  unfold JS.truthy. rewrite negb_true_iff.
  split.
  - intros E H. apply Qeq_bool_neq in E. contradiction.
  - intros H. destruct (Qeq_bool x 0) eqn:E; [|reflexivity].
    apply Qeq_bool_eq in E. contradiction.
Qed.

Lemma truthy_zero (x : Q) : JS.truthy x = false <-> x == 0.
Proof.
  unfold JS.truthy. rewrite negb_false_iff. apply Qeq_bool_iff.
Qed.

(** [Math.floor] returns the one integer [k] with [k <= x < k + 1]. *)
Lemma Math_floor_spec (x : Q) :
  inject_Z (Qfloor x) <= x /\ x < inject_Z (Qfloor x + 1).
Proof. split; [apply Qfloor_le | apply Qlt_floor]. Qed.

Lemma floor_unique (x : Q) (k : Z) :
  inject_Z k <= x -> x < inject_Z (k + 1) -> Qfloor x = k.
Proof.
  intros Hle Hlt.
  destruct (Math_floor_spec x) as [Fle Flt].
  assert (A : inject_Z k < inject_Z (Qfloor x + 1))
    by (eapply Qle_lt_trans; eassumption).
  assert (B : inject_Z (Qfloor x) < inject_Z (k + 1))
    by (eapply Qle_lt_trans; eassumption).
  rewrite <- Zlt_Qlt in A, B. lia.
Qed.

(** ** The four components, one equation each *)

Lemma carCommission_eq (s : SaleEntry) :
  carCommission (calculateCommissions s) =
  if JS.ltb (sale_price s) 10000 then 200
  else if JS.ltb (sale_price s) 20000 then 300
  else if JS.ltb (sale_price s) 30000 then 400
  else 500.
Proof. reflexivity. Qed.

Lemma accessoriesCommission_eq (s : SaleEntry) :
  accessoriesCommission (calculateCommissions s) =
  match accessories_price s with
  | Some x =>
      if JS.truthy x && JS.gtb (x - threshold_of (sale_type s)) 800
      then 100 else 0
  | None => 0
  end.
Proof.
  unfold calculateCommissions; cbn [accessoriesCommission].
  destruct (accessories_price s) as [x|]; [|reflexivity].
  destruct (JS.truthy x); [|reflexivity].
  destruct (sale_type s); reflexivity.
Qed.

Lemma warrantyCommission_eq (s : SaleEntry) :
  warrantyCommission (calculateCommissions s) =
  match warranty_price s, warranty_cost s with
  | Some price, Some cost =>
      if JS.truthy price && JS.truthy cost
      then inject_Z (Qfloor ((price - cost) / 1000)) * 100
      else 0
  | _, _ => 0
  end.
Proof. reflexivity. Qed.

Lemma maintenanceCommission_eq (s : SaleEntry) :
  maintenanceCommission (calculateCommissions s) =
  match maintenance_price s with
  | Some m => if JS.truthy m && JS.gtb m 800 then 100 else 0
  | None => 0
  end.
Proof. reflexivity. Qed.

Lemma totalCommission_eq (s : SaleEntry) :
  totalCommission (calculateCommissions s) =
  carCommission (calculateCommissions s)
  + accessoriesCommission (calculateCommissions s)
  + warrantyCommission (calculateCommissions s)
  + maintenanceCommission (calculateCommissions s).
Proof. reflexivity. Qed.

(** The value of the warranty component when the source computes it. *)
Lemma warranty_when_computed (s : SaleEntry) (price cost : Q) :
  warranty_computed s price cost ->
  warrantyCommission (calculateCommissions s) =
  inject_Z (Qfloor ((price - cost) / 1000)) * 100.
Proof.
  intros (Hp & Hc & Np & Nc).
  rewrite warrantyCommission_eq, Hp, Hc.
  apply truthy_nonzero in Np, Nc. now rewrite Np, Nc.
Qed.

(** ** Total *)




(** The sum also holds on an entry whose warranty profit is negative, where
    it comes to 300 + 0 - 100 + 0. *)
Example total_with_negative_warranty :
  totalCommission (calculateCommissions (warranty_sale 500 1000)) = 200.
Proof. reflexivity. Qed.

(** ** Warranty *)




(** ** Vehicle *)

(** C5: [carCommission] is 200 below 10000, 300 from 10000 up to but not
    including 20000, 400 from 20000 up to but not including 30000, and 500
    from 30000 on; a sale price of exactly 10000 earns 300. *)
Theorem car_commission_tiers (s : SaleEntry) :
  let c := carCommission (calculateCommissions s) in
  (sale_price s < 10000 -> c = 200) /\
  (10000 <= sale_price s -> sale_price s < 20000 -> c = 300) /\
  (20000 <= sale_price s -> sale_price s < 30000 -> c = 400) /\
  (30000 <= sale_price s -> c = 500) /\
  (sale_price s == 10000 -> c = 300).
Proof.
  intros c. subst c. rewrite carCommission_eq.
  destruct (JS.ltb (sale_price s) 10000) eqn:E1;
    [apply ltb_lt in E1 | apply ltb_ge in E1];
  (destruct (JS.ltb (sale_price s) 20000) eqn:E2;
    [apply ltb_lt in E2 | apply ltb_ge in E2]);
  (destruct (JS.ltb (sale_price s) 30000) eqn:E3;
    [apply ltb_lt in E3 | apply ltb_ge in E3]);
  unfold Qlt, Qle, Qeq in *; cbn [Qnum Qden] in *;
  repeat split; intros; try reflexivity; exfalso; lia.
Qed.

Lemma car_commission_tiers_witness :
  carCommission (calculateCommissions (bare_sale 9999)) = 200 /\
  carCommission (calculateCommissions (bare_sale 10000)) = 300 /\
  carCommission (calculateCommissions (bare_sale 19999.5)) = 300 /\
  carCommission (calculateCommissions (bare_sale 20000)) = 400 /\
  carCommission (calculateCommissions (bare_sale 30000)) = 500.
Proof.
  split; [|split; [|split; [|split]]].
  - apply (proj1 (car_commission_tiers (bare_sale 9999))). reflexivity.
  - apply (proj2 (proj2 (proj2 (proj2
      (car_commission_tiers (bare_sale 10000)))))). reflexivity.
  - apply (proj1 (proj2 (car_commission_tiers (bare_sale 19999.5))));
      [discriminate | reflexivity].
  - apply (proj1 (proj2 (proj2 (car_commission_tiers (bare_sale 20000)))));
      [discriminate | reflexivity].
  - apply (proj1 (proj2 (proj2 (proj2
      (car_commission_tiers (bare_sale 30000)))))). discriminate.
Defined.

(** ** Accessories *)

Lemma accessories_due_dec (s : SaleEntry) :
  (accessories_bonus_due s /\
   accessoriesCommission (calculateCommissions s) = 100) \/
  (~ accessories_bonus_due s /\
   accessoriesCommission (calculateCommissions s) = 0).
Proof.
  rewrite accessoriesCommission_eq. unfold accessories_bonus_due.
  destruct (accessories_price s) as [x|] eqn:Hx.
  - destruct (JS.truthy x) eqn:T; cbn [andb].
    + destruct (JS.gtb (x - threshold_of (sale_type s)) 800) eqn:G.
      * left. split; [|reflexivity]. exists x.
        apply truthy_nonzero in T. apply gtb_gt in G. auto.
      * right. split; [|reflexivity]. intros (y & Hy & _ & L).
        injection Hy as <-. apply gtb_le in G.
        exact (Qlt_not_le _ _ L G).
    + right. split; [|reflexivity]. intros (y & Hy & N & _).
      injection Hy as <-. apply truthy_zero in T. contradiction.
  - right. split; [|reflexivity]. intros (y & Hy & _). discriminate.
Qed.

(** C6: [accessoriesCommission] is 100 exactly when [accessories_price] is
    present, is not zero and exceeds the threshold (988 for a new car, 488
    otherwise) by more than 800; in every other case it is 0, so it is never
    above 100. *)
Theorem accessories_commission_is_flat_bonus (s : SaleEntry) :
  let a := accessoriesCommission (calculateCommissions s) in
  (accessories_bonus_due s -> a = 100) /\
  (~ accessories_bonus_due s -> a = 0) /\
  (a = 100 -> accessories_bonus_due s) /\
  a <= 100.
Proof.
  intros a. subst a.
  destruct (accessories_due_dec s) as [[D E] | [D E]]; rewrite E.
  - split; [reflexivity|]. split; [contradiction|].
    split; [intros _; exact D | discriminate].
  - split; [contradiction|]. split; [reflexivity|].
    split; [discriminate | discriminate].
Qed.

Lemma accessories_commission_is_flat_bonus_witness :
  accessoriesCommission (calculateCommissions (accessories_sale Used 1289))
  = 100 /\
  accessoriesCommission (calculateCommissions (accessories_sale New 1788))
  = 0 /\
  accessoriesCommission (calculateCommissions (accessories_sale New 500000))
  = 100.
Proof.
  split; [|split].
  - apply (proj1 (accessories_commission_is_flat_bonus
                    (accessories_sale Used 1289))).
    exists 1289. split; [reflexivity|]. split; [discriminate | reflexivity].
  - apply (proj1 (proj2 (accessories_commission_is_flat_bonus
                           (accessories_sale New 1788)))).
    intros (x & Hx & _ & L). injection Hx as <-. revert L. discriminate.
  - apply (proj1 (accessories_commission_is_flat_bonus
                    (accessories_sale New 500000))).
    exists 500000. split; [reflexivity|]. split; [discriminate | reflexivity].
Defined.

(** ** Maintenance *)

Lemma maintenance_due_dec (s : SaleEntry) :
  (maintenance_bonus_due s /\
   maintenanceCommission (calculateCommissions s) = 100) \/
  (~ maintenance_bonus_due s /\
   maintenanceCommission (calculateCommissions s) = 0).
Proof.
  rewrite maintenanceCommission_eq. unfold maintenance_bonus_due.
  destruct (maintenance_price s) as [m|] eqn:Hm.
  - destruct (JS.gtb m 800) eqn:G.
    + left. apply gtb_gt in G.
      assert (T : JS.truthy m = true).
      { apply truthy_nonzero. intros Z. rewrite Z in G. revert G.
        discriminate. }
      rewrite T. split; [|reflexivity]. exists m. auto.
    + right. rewrite andb_false_r. split; [|reflexivity].
      intros (y & Hy & L). injection Hy as <-. apply gtb_le in G.
      exact (Qlt_not_le _ _ L G).
  - right. split; [|reflexivity]. intros (y & Hy & _). discriminate.
Qed.

(** C7: [maintenanceCommission] is 100 exactly when [maintenance_price] is
    present and strictly above 800, and 0 otherwise; a price of 800 gives 0
    and a price of 801 gives 100. *)
Theorem maintenance_commission_is_flat_bonus (s : SaleEntry) :
  let c := maintenanceCommission (calculateCommissions s) in
  (maintenance_bonus_due s -> c = 100) /\
  (~ maintenance_bonus_due s -> c = 0) /\
  (c = 100 -> maintenance_bonus_due s) /\
  (forall m, maintenance_price s = Some m -> m == 800 -> c = 0) /\
  (forall m, maintenance_price s = Some m -> m == 801 -> c = 100).
Proof.
  intros c. subst c.
  destruct (maintenance_due_dec s) as [[D E] | [D E]]; rewrite E.
  - split; [reflexivity|]. split; [contradiction|].
    split; [intros _; exact D|].
    split; [|reflexivity].
    intros m Hm M. exfalso. destruct D as (y & Hy & L).
    rewrite Hm in Hy. injection Hy as <-. rewrite M in L.
    revert L. discriminate.
  - split; [contradiction|]. split; [reflexivity|].
    split; [discriminate|].
    split; [reflexivity|].
    intros m Hm M. exfalso. apply D. exists m. split; [exact Hm|].
    rewrite M. reflexivity.
Qed.

Lemma maintenance_commission_is_flat_bonus_witness :
  maintenanceCommission (calculateCommissions (maintenance_sale 800)) = 0 /\
  maintenanceCommission (calculateCommissions (maintenance_sale 801)) = 100.
Proof.
  split.
  - apply (proj1 (proj2 (proj2 (proj2
      (maintenance_commission_is_flat_bonus (maintenance_sale 800)))))
      800); reflexivity.
  - apply (proj2 (proj2 (proj2 (proj2
      (maintenance_commission_is_flat_bonus (maintenance_sale 801)))))
      801); reflexivity.
Defined.

(** ** Totality and absent fields *)

(** C8: the calculator returns a breakdown on every sale entry, whatever
    combination of optional fields is absent, and an absent optional field
    leaves its component at 0: absent accessories give no accessories
    commission, an absent warranty price or warranty cost gives no warranty
    commission, an absent maintenance price gives no maintenance
    commission. *)
Theorem calculator_total_with_absent_fields (s : SaleEntry) :
  (exists b : CommissionBreakdown, calculateCommissions s = b) /\
  (accessories_price s = None ->
   accessoriesCommission (calculateCommissions s) = 0) /\
  (warranty_price s = None ->
   warrantyCommission (calculateCommissions s) = 0) /\
  (warranty_cost s = None ->
   warrantyCommission (calculateCommissions s) = 0) /\
  (maintenance_price s = None ->
   maintenanceCommission (calculateCommissions s) = 0).
Proof.
  split; [eexists; reflexivity|].
  rewrite accessoriesCommission_eq, warrantyCommission_eq,
    maintenanceCommission_eq.
  split; [intros ->; reflexivity|].
  split; [intros ->; reflexivity|].
  split; [|intros ->; reflexivity].
  intros ->. destruct (warranty_price s); reflexivity.
Qed.

Lemma calculator_total_with_absent_fields_witness :
  calculateCommissions (bare_sale 15000) =
  {| carCommission := 300; accessoriesCommission := 0;
     warrantyCommission := 0; maintenanceCommission := 0;
     totalCommission := 300 |} /\
  accessoriesCommission (calculateCommissions (bare_sale 15000)) = 0 /\
  warrantyCommission (calculateCommissions (bare_sale 15000)) = 0 /\
  maintenanceCommission (calculateCommissions (bare_sale 15000)) = 0.
Proof.
  pose proof (calculator_total_with_absent_fields (bare_sale 15000))
    as (_ & A & W & _ & M).
  split; [reflexivity|].
  split; [apply A; reflexivity|].
  split; [apply W; reflexivity | apply M; reflexivity].
Defined.

(** ** Fields the calculator reads *)

Lemma ltb_same (x x' y : Q) : x == x' -> JS.ltb x y = JS.ltb x' y.
Proof.
  intros H. apply eq_true_iff_eq. rewrite !ltb_lt, H. reflexivity.
Qed.

Lemma gtb_same (x x' y : Q) : x == x' -> JS.gtb x y = JS.gtb x' y.
Proof.
  intros H. apply eq_true_iff_eq. rewrite !gtb_gt, H. reflexivity.
Qed.

Lemma truthy_same (x x' : Q) : x == x' -> JS.truthy x = JS.truthy x'.
Proof.
  intros H. unfold JS.truthy. now rewrite H.
Qed.

Lemma breakdown_ext (b1 b2 : CommissionBreakdown) :
  carCommission b1 = carCommission b2 ->
  accessoriesCommission b1 = accessoriesCommission b2 ->
  warrantyCommission b1 = warrantyCommission b2 ->
  maintenanceCommission b1 = maintenanceCommission b2 ->
  totalCommission b1 = totalCommission b2 ->
  b1 = b2.
Proof.
  destruct b1, b2; cbn. intros -> -> -> -> ->. reflexivity.
Qed.

(** C9: the breakdown depends only on [sale_price], [sale_type],
    [accessories_price], [warranty_price], [warranty_cost] and
    [maintenance_price]: two entries that agree on these six fields get
    equal breakdowns, however they differ in [maintenance_cost], the
    identifiers, the stock number, the customer name, the sharing fields
    or the date. *)
Theorem calculator_reads_six_fields (s1 s2 : SaleEntry) :
  agree_on_read_fields s1 s2 ->
  calculateCommissions s1 = calculateCommissions s2.
Proof.
  intros (Hp & Ht & Ha & Hwp & Hwc & Hm). unfold same_number in Hp.
  assert (C : carCommission (calculateCommissions s1) =
              carCommission (calculateCommissions s2)).
  { rewrite !carCommission_eq.
    now rewrite !(ltb_same _ _ _ Hp). }
  assert (A : accessoriesCommission (calculateCommissions s1) =
              accessoriesCommission (calculateCommissions s2)).
  { rewrite !accessoriesCommission_eq, Ht.
    destruct (accessories_price s1) as [x|], (accessories_price s2) as [y|];
      cbn in Ha; try contradiction; [|reflexivity].
    rewrite (truthy_same _ _ Ha).
    rewrite (gtb_same (x - _) (y - threshold_of (sale_type s2)) 800);
      [reflexivity | now rewrite Ha]. }
  assert (W : warrantyCommission (calculateCommissions s1) =
              warrantyCommission (calculateCommissions s2)).
  { rewrite !warrantyCommission_eq.
    destruct (warranty_price s1) as [p|], (warranty_price s2) as [p'|];
      cbn in Hwp; try contradiction;
    destruct (warranty_cost s1) as [c|], (warranty_cost s2) as [c'|];
      cbn in Hwc; try contradiction; try reflexivity.
    rewrite (truthy_same _ _ Hwp), (truthy_same _ _ Hwc).
    assert (F : Qfloor ((p - c) / 1000) = Qfloor ((p' - c') / 1000))
      by now rewrite Hwp, Hwc.
    now rewrite F. }
  assert (M : maintenanceCommission (calculateCommissions s1) =
              maintenanceCommission (calculateCommissions s2)).
  { rewrite !maintenanceCommission_eq.
    destruct (maintenance_price s1) as [m|], (maintenance_price s2) as [m'|];
      cbn in Hm; try contradiction; [|reflexivity].
    now rewrite (truthy_same _ _ Hm), (gtb_same _ _ 800 Hm). }
  apply breakdown_ext; try assumption.
  rewrite !totalCommission_eq, C, A, W, M. reflexivity.
Qed.

Lemma calculator_reads_six_fields_witness :
  maintenance_cost full_sale <> maintenance_cost full_sale_other /\
  id full_sale <> id full_sale_other /\
  calculateCommissions full_sale = calculateCommissions full_sale_other.
Proof.
  split; [discriminate|]. split; [discriminate|].
  apply (calculator_reads_six_fields full_sale full_sale_other).
  unfold agree_on_read_fields, same_number; cbn.
  split; [reflexivity|]. split; [reflexivity|].
  split; [reflexivity|]. split; [reflexivity|].
  split; reflexivity.
Defined.

(** ** Shape of the amounts *)

Lemma car_in_tiers (s : SaleEntry) :
  let c := carCommission (calculateCommissions s) in
  c = 200 \/ c = 300 \/ c = 400 \/ c = 500.
Proof.
  cbv zeta. rewrite carCommission_eq.
  destruct (JS.ltb _ 10000); [auto|].
  destruct (JS.ltb _ 20000); [auto|].
  destruct (JS.ltb _ 30000); auto.
Qed.

Lemma accessories_flat (s : SaleEntry) :
  let a := accessoriesCommission (calculateCommissions s) in
  a = 0 \/ a = 100.
Proof.
  cbv zeta. destruct (accessories_due_dec s) as [[_ E] | [_ E]]; auto.
Qed.

Lemma maintenance_flat (s : SaleEntry) :
  let m := maintenanceCommission (calculateCommissions s) in
  m = 0 \/ m = 100.
Proof.
  cbv zeta. destruct (maintenance_due_dec s) as [[_ E] | [_ E]]; auto.
Qed.

(** The warranty component is always a whole number of hundreds. *)
Lemma warranty_hundreds (s : SaleEntry) :
  exists k : Z,
    warrantyCommission (calculateCommissions s) = inject_Z k * 100.
Proof.
  rewrite warrantyCommission_eq.
  destruct (warranty_price s) as [p|]; [|now exists 0%Z].
  destruct (warranty_cost s) as [c|]; [|now exists 0%Z].
  destruct (JS.truthy p && JS.truthy c); [|now exists 0%Z].
  now exists (Qfloor ((p - c) / 1000)).
Qed.

Lemma hundreds_multiple (k : Z) : is_multiple_of_100 (inject_Z k * 100).
Proof.
  exists k. unfold Qeq, Qmult, inject_Z; cbn [Qnum Qden]. lia.
Qed.

Lemma multiple_plus (x y : Q) :
  is_multiple_of_100 x -> is_multiple_of_100 y -> is_multiple_of_100 (x + y).
Proof.
  intros [i Hi] [j Hj]. exists (i + j)%Z. rewrite Hi, Hj.
  unfold Qeq, Qplus, inject_Z; cbn [Qnum Qden]. lia.
Qed.

Lemma multiple_is_integer (x : Q) : is_multiple_of_100 x -> is_integer x.
Proof. intros [k Hk]. now exists (100 * k)%Z. Qed.

Lemma components_multiples (s : SaleEntry) :
  let b := calculateCommissions s in
  is_multiple_of_100 (carCommission b) /\
  is_multiple_of_100 (accessoriesCommission b) /\
  is_multiple_of_100 (warrantyCommission b) /\
  is_multiple_of_100 (maintenanceCommission b) /\
  is_multiple_of_100 (totalCommission b).
Proof.
  cbv zeta.
  assert (C : is_multiple_of_100 (carCommission (calculateCommissions s))).
  { destruct (car_in_tiers s) as [E | [E | [E | E]]]; rewrite E;
      [exists 2%Z | exists 3%Z | exists 4%Z | exists 5%Z]; reflexivity. }
  assert (A : is_multiple_of_100
                (accessoriesCommission (calculateCommissions s))).
  { destruct (accessories_flat s) as [E | E]; rewrite E;
      [exists 0%Z | exists 1%Z]; reflexivity. }
  assert (W : is_multiple_of_100
                (warrantyCommission (calculateCommissions s))).
  { destruct (warranty_hundreds s) as [k E]. rewrite E.
    apply hundreds_multiple. }
  assert (M : is_multiple_of_100
                (maintenanceCommission (calculateCommissions s))).
  { destruct (maintenance_flat s) as [E | E]; rewrite E;
      [exists 0%Z | exists 1%Z]; reflexivity. }
  repeat (split; [assumption|]).
  rewrite totalCommission_eq. repeat apply multiple_plus; assumption.
Qed.

(** C10, as the code has it: [carCommission] is one of 200, 300, 400, 500,
    and [accessoriesCommission] and [maintenanceCommission] are each 0 or
    100, all of them integer multiples of 100; for every sale entry whose
    warranty commission has a magnitude of at most 2^53 - 700,
    [warrantyCommission] and [totalCommission] are integer multiples of 100
    too.  (Below that bound the multiplication by 100 and the additions of
    the source are exact in double precision.) *)
Theorem amounts_are_hundreds_when_exact (s : SaleEntry) :
  let b := calculateCommissions s in
  (is_multiple_of_100 (carCommission b) /\
   is_multiple_of_100 (accessoriesCommission b) /\
   is_multiple_of_100 (maintenanceCommission b)) /\
  (carCommission b = 200 \/ carCommission b = 300 \/
   carCommission b = 400 \/ carCommission b = 500) /\
  (accessoriesCommission b = 0 \/ accessoriesCommission b = 100) /\
  (maintenanceCommission b = 0 \/ maintenanceCommission b = 100) /\
  (Qabs (warrantyCommission b) <= exact_commission_bound ->
   is_multiple_of_100 (warrantyCommission b) /\
   is_multiple_of_100 (totalCommission b)).
Proof.
  cbv zeta.
  destruct (components_multiples s) as (C & A & W & M & T).
  split; [auto|].
  split; [apply car_in_tiers|].
  split; [apply accessories_flat|].
  split; [apply maintenance_flat | auto].
Qed.

Lemma amounts_are_hundreds_when_exact_witness :
  is_multiple_of_100
    (warrantyCommission (calculateCommissions (warranty_sale 500 1000))) /\
  is_multiple_of_100
    (totalCommission (calculateCommissions (warranty_sale 500 1000))).
Proof.
  apply (proj2 (proj2 (proj2 (proj2
    (amounts_are_hundreds_when_exact (warranty_sale 500 1000)))))).
  discriminate.
Defined.

(** C10 as stated fails in double precision: with the double nearest to
    9007199254740991000 as warranty price and a warranty cost of 1 the
    source returns the warranty commission 900719925474099072 and the total
    900719925474099328, neither of them a multiple of 100. *)
Lemma amounts_are_hundreds_counterexample :
  let b := F64.calculateCommissions
             (F64.warranty_sale F64.d_9007199254740991000 F64.d_1) in
  F64.exact_breakdown b
  = Some (300, 0, 900719925474099072, 0, 900719925474099328) /\
  ~ is_multiple_of_100 900719925474099072 /\
  ~ is_multiple_of_100 900719925474099328.
Proof.
  split; [vm_compute; reflexivity|].
  split; intros [k H]; unfold Qeq, inject_Z in H; cbn [Qnum Qden] in H; lia.
Qed.

(** ** Sign of the amounts *)

Lemma flat_nonneg (x : Q) : x = 0 \/ x = 100 -> is_nonneg_integer x.
Proof.
  intros [-> | ->]; [exists 0%Z | exists 100%Z]; split; (lia || reflexivity).
Qed.

Lemma nonneg_plus (x y : Q) :
  is_nonneg_integer x -> is_nonneg_integer y -> is_nonneg_integer (x + y).
Proof.
  intros (i & Pi & Hi) (j & Pj & Hj). exists (i + j)%Z.
  split; [lia|]. rewrite Hi, Hj.
  unfold Qeq, Qplus, inject_Z; cbn [Qnum Qden]. lia.
Qed.

Lemma car_nonneg (s : SaleEntry) :
  is_nonneg_integer (carCommission (calculateCommissions s)).
Proof.
  destruct (car_in_tiers s) as [E | [E | [E | E]]]; rewrite E;
    [exists 200%Z | exists 300%Z | exists 400%Z | exists 500%Z];
    split; (lia || reflexivity).
Qed.

(** With the cost not above the price the floor of the profit in thousands
    is not negative; with the cost above the price it is. *)
Lemma floor_profit_sign (price cost : Q) :
  (cost <= price -> (0 <= Qfloor ((price - cost) / 1000))%Z) /\
  (price < cost -> (Qfloor ((price - cost) / 1000) < 0)%Z).
Proof.
  split; intros H.
  - change 0%Z with (Qfloor 0). apply Qfloor_resp_le.
    apply Qle_shift_div_l; [reflexivity | lra].
  - assert (L : (price - cost) / 1000 < 0)
      by (apply Qlt_shift_div_r; [reflexivity | lra]).
    pose proof (Qfloor_le ((price - cost) / 1000)) as F.
    assert (G : inject_Z (Qfloor ((price - cost) / 1000)) < inject_Z 0)
      by (eapply Qle_lt_trans; eassumption).
    now rewrite <- Zlt_Qlt in G.
Qed.




(** ** The two readings of the optional-field guards *)

Lemma nullcheck_car (s : SaleEntry) :
  carCommission (calculateCommissions_nullcheck s) =
  carCommission (calculateCommissions s).
Proof. reflexivity. Qed.

Lemma nullcheck_accessories (s : SaleEntry) :
  accessoriesCommission (calculateCommissions_nullcheck s) =
  accessoriesCommission (calculateCommissions s).
Proof.
  rewrite accessoriesCommission_eq.
  unfold calculateCommissions_nullcheck; cbn [accessoriesCommission].
  destruct (accessories_price s) as [x|]; [|reflexivity].
  replace (if SaleType_eqb (sale_type s) New then 988 else 488)
    with (threshold_of (sale_type s)) by (destruct (sale_type s); reflexivity).
  destruct (JS.truthy x) eqn:T; [reflexivity|].
  apply truthy_zero in T. cbn [andb].
  rewrite (gtb_same (x - threshold_of (sale_type s))
             (0 - threshold_of (sale_type s)) 800) by now rewrite T.
  destruct (sale_type s); reflexivity.
Qed.

Lemma nullcheck_maintenance (s : SaleEntry) :
  maintenanceCommission (calculateCommissions_nullcheck s) =
  maintenanceCommission (calculateCommissions s).
Proof.
  rewrite maintenanceCommission_eq.
  unfold calculateCommissions_nullcheck; cbn [maintenanceCommission].
  destruct (maintenance_price s) as [m|]; [|reflexivity].
  destruct (JS.truthy m) eqn:T; [reflexivity|].
  apply truthy_zero in T. cbn [andb].
  now rewrite (gtb_same m 0 800 T).
Qed.

Lemma nullcheck_warranty_eq (s : SaleEntry) :
  warrantyCommission (calculateCommissions_nullcheck s) =
  match warranty_price s, warranty_cost s with
  | Some price, Some cost => inject_Z (Qfloor ((price - cost) / 1000)) * 100
  | _, _ => 0
  end.
Proof. reflexivity. Qed.

Lemma nullcheck_total_eq (s : SaleEntry) :
  totalCommission (calculateCommissions_nullcheck s) =
  carCommission (calculateCommissions_nullcheck s)
  + accessoriesCommission (calculateCommissions_nullcheck s)
  + warrantyCommission (calculateCommissions_nullcheck s)
  + maintenanceCommission (calculateCommissions_nullcheck s).
Proof. reflexivity. Qed.

Lemma hundreds_zero (k : Z) : 0 = inject_Z k * 100 <-> k = 0%Z.
Proof.
  split.
  - unfold Qmult, inject_Z; cbn [Qnum Qden]. intros E.
    injection E as E. lia.
  - intros ->. reflexivity.
Qed.

(** The two readings give the same warranty component exactly where
    [warranty_guards_agree] holds. *)
Lemma nullcheck_warranty (s : SaleEntry) :
  warrantyCommission (calculateCommissions s) =
  warrantyCommission (calculateCommissions_nullcheck s)
  <-> warranty_guards_agree s.
Proof.
  rewrite warrantyCommission_eq, nullcheck_warranty_eq.
  unfold warranty_guards_agree.
  destruct (warranty_price s) as [p|]; [|tauto].
  destruct (warranty_cost s) as [c|]; [|tauto].
  destruct (JS.truthy p) eqn:Tp; cbn [andb].
  - destruct (JS.truthy c) eqn:Tc.
    + apply truthy_nonzero in Tp, Tc. tauto.
    + apply truthy_zero in Tc. rewrite hundreds_zero. tauto.
  - apply truthy_zero in Tp. rewrite hundreds_zero. tauto.
Qed.

(** Where the guards part, the warranty components denote different
    numbers. *)
Lemma nullcheck_warranty_differs (s : SaleEntry) :
  ~ warranty_guards_agree s ->
  ~ warrantyCommission (calculateCommissions s)
    == warrantyCommission (calculateCommissions_nullcheck s).
Proof.
  rewrite warrantyCommission_eq, nullcheck_warranty_eq.
  unfold warranty_guards_agree.
  destruct (warranty_price s) as [p|]; [|intros N; now contradiction N].
  destruct (warranty_cost s) as [c|]; [|intros N; now contradiction N].
  intros N.
  assert (K : Qfloor ((p - c) / 1000) <> 0%Z) by (intros K; apply N; auto).
  assert (D : ~ 0 == inject_Z (Qfloor ((p - c) / 1000)) * 100).
  { unfold Qeq, Qmult, inject_Z; cbn [Qnum Qden]. lia. }
  destruct (JS.truthy p) eqn:Tp; cbn [andb]; [|exact D].
  destruct (JS.truthy c) eqn:Tc; [|exact D].
  apply truthy_nonzero in Tp, Tc. exfalso. apply N. tauto.
Qed.




(** ** Further properties of the calculator *)

(** X1: a higher sale price never earns a lower car commission. *)
Theorem car_commission_monotone (s1 s2 : SaleEntry) :
  sale_price s1 <= sale_price s2 ->
  carCommission (calculateCommissions s1)
  <= carCommission (calculateCommissions s2).
Proof.
  intros H. rewrite !carCommission_eq.
  destruct (JS.ltb (sale_price s1) 10000) eqn:A1;
    [apply ltb_lt in A1 | apply ltb_ge in A1];
  (destruct (JS.ltb (sale_price s1) 20000) eqn:A2;
    [apply ltb_lt in A2 | apply ltb_ge in A2]);
  (destruct (JS.ltb (sale_price s1) 30000) eqn:A3;
    [apply ltb_lt in A3 | apply ltb_ge in A3]);
  (destruct (JS.ltb (sale_price s2) 10000) eqn:B1;
    [apply ltb_lt in B1 | apply ltb_ge in B1]);
  (destruct (JS.ltb (sale_price s2) 20000) eqn:B2;
    [apply ltb_lt in B2 | apply ltb_ge in B2]);
  (destruct (JS.ltb (sale_price s2) 30000) eqn:B3;
    [apply ltb_lt in B3 | apply ltb_ge in B3]);
  try discriminate; exfalso; lra.
Qed.

Lemma car_commission_monotone_witness :
  carCommission (calculateCommissions (bare_sale 9999))
  <= carCommission (calculateCommissions (bare_sale 30000)).
Proof.
  apply (car_commission_monotone (bare_sale 9999) (bare_sale 30000)).
  discriminate.
Defined.

Lemma thousands_floor (x : Q) (k : Z) :
  inject_Z k * 1000 <= x -> x < inject_Z (k + 1) * 1000 ->
  Qfloor (x / 1000) = k.
Proof.
  intros L U. apply floor_unique.
  - apply Qle_shift_div_l; [reflexivity | exact L].
  - apply Qlt_shift_div_r; [reflexivity | exact U].
Qed.

(** X2: the warranty commission steps by 100 for every full 1000 of
    profit: when both warranty fields are present and not zero and the
    profit is a whole number of magnitude at most 2^53 that lies in
    [[1000 k, 1000 (k + 1))] for an integer [k], negative or not, the
    commission is [100 k]. *)
Theorem warranty_steps_per_thousand (s : SaleEntry) (price cost : Q) (k : Z) :
  warranty_computed s price cost ->
  whole_profit price cost ->
  inject_Z k * 1000 <= price - cost ->
  price - cost < inject_Z (k + 1) * 1000 ->
  warrantyCommission (calculateCommissions s) = inject_Z k * 100.
Proof.
  intros H _ L U. rewrite (warranty_when_computed s price cost H).
  now rewrite (thousands_floor _ k L U).
Qed.

Lemma warranty_steps_per_thousand_witness :
  warrantyCommission (calculateCommissions (warranty_sale 2500 500))
  = inject_Z 2 * 100.
Proof.
  apply (warranty_steps_per_thousand (warranty_sale 2500 500) 2500 500 2).
  - repeat split; discriminate.
  - exists 2000%Z. split; [reflexivity | discriminate].
  - discriminate.
  - reflexivity.
Defined.

(** X3: a warranty commission computed from a profit that is a whole
    number of magnitude at most 2^53 never exceeds a tenth of the profit
    and falls short of it by less than 100. *)
Theorem warranty_within_tenth_of_profit (s : SaleEntry) (price cost : Q) :
  warranty_computed s price cost ->
  whole_profit price cost ->
  let w := warrantyCommission (calculateCommissions s) in
  w <= (price - cost) / 10 /\ (price - cost) / 10 - 100 < w.
Proof.
  intros H _. cbv zeta. rewrite (warranty_when_computed s price cost H).
  destruct (Math_floor_spec ((price - cost) / 1000)) as [L U].
  rewrite inject_Z_plus in U.
  assert (E : (price - cost) / 10 == (price - cost) / 1000 * 100)
    by (field; discriminate).
  rewrite E. change (inject_Z 1) with 1 in U.
  split; lra.
Qed.

Lemma warranty_within_tenth_of_profit_witness :
  warrantyCommission (calculateCommissions (warranty_sale 2999 500))
  <= (2999 - 500) / 10 /\
  (2999 - 500) / 10 - 100
  < warrantyCommission (calculateCommissions (warranty_sale 2999 500)).
Proof.
  apply (warranty_within_tenth_of_profit (warranty_sale 2999 500) 2999 500).
  - repeat split; discriminate.
  - exists 2499%Z. split; [reflexivity | discriminate].
Defined.

(** X4: between two entries whose warranty is computed, the one with the
    larger profit never earns the smaller warranty commission. *)
Theorem warranty_monotone_in_profit (s1 s2 : SaleEntry)
    (p1 c1 p2 c2 : Q) :
  warranty_computed s1 p1 c1 -> warranty_computed s2 p2 c2 ->
  p1 - c1 <= p2 - c2 ->
  warrantyCommission (calculateCommissions s1)
  <= warrantyCommission (calculateCommissions s2).
Proof.
  intros H1 H2 L.
  rewrite (warranty_when_computed s1 p1 c1 H1),
    (warranty_when_computed s2 p2 c2 H2).
  assert (D : (p1 - c1) / 1000 <= (p2 - c2) / 1000).
  { apply Qle_shift_div_l; [reflexivity|].
    assert (E : (p1 - c1) / 1000 * 1000 == p1 - c1) by (field; discriminate).
    rewrite E. exact L. }
  apply Qfloor_resp_le in D.
  unfold Qle, Qmult, inject_Z; cbn [Qnum Qden]. lia.
Qed.

Lemma warranty_monotone_in_profit_witness :
  warrantyCommission (calculateCommissions (warranty_sale 500 1000))
  <= warrantyCommission (calculateCommissions (warranty_sale 2500 500)).
Proof.
  apply (warranty_monotone_in_profit _ _ 500 1000 2500 500).
  - repeat split; discriminate.
  - repeat split; discriminate.
  - discriminate.
Defined.

(** X5: a warranty whose price or whose cost is recorded as zero earns no
    warranty commission, whatever the other amount is. *)
Theorem warranty_skipped_on_zero (s : SaleEntry) :
  (exists price, warranty_price s = Some price /\ price == 0) \/
  (exists cost, warranty_cost s = Some cost /\ cost == 0) ->
  warrantyCommission (calculateCommissions s) = 0.
Proof.
  rewrite warrantyCommission_eq.
  intros [(p & Hp & Z) | (c & Hc & Z)].
  - rewrite Hp. destruct (warranty_cost s); [|reflexivity].
    apply truthy_zero in Z. now rewrite Z.
  - rewrite Hc. destruct (warranty_price s) as [p|]; [|reflexivity].
    apply truthy_zero in Z. rewrite Z. now rewrite andb_false_r.
Qed.

Lemma warranty_skipped_on_zero_witness :
  warrantyCommission (calculateCommissions (warranty_sale 2000 0)) = 0.
Proof.
  apply (warranty_skipped_on_zero (warranty_sale 2000 0)).
  right. exists 0. split; reflexivity.
Defined.

(** X6: for every sale entry whose warranty commission has a magnitude of
    at most 2^53 - 700, the total is the warranty commission plus an amount
    between 200 and 700. *)
Theorem total_within_band_of_warranty (s : SaleEntry) :
  let b := calculateCommissions s in
  Qabs (warrantyCommission b) <= exact_commission_bound ->
  warrantyCommission b + 200 <= totalCommission b /\
  totalCommission b <= warrantyCommission b + 700.
Proof.
  cbv zeta. intros _. rewrite totalCommission_eq.
  destruct (car_in_tiers s) as [C | [C | [C | C]]];
  destruct (accessories_flat s) as [A | A];
  destruct (maintenance_flat s) as [M | M];
  rewrite C, A, M; split; lra.
Qed.

Lemma total_within_band_of_warranty_witness :
  let b := calculateCommissions full_sale in
  warrantyCommission b + 200 <= totalCommission b /\
  totalCommission b <= warrantyCommission b + 700.
Proof.
  apply (total_within_band_of_warranty full_sale). discriminate.
Defined.

(** X7: for one sale type, a higher accessories price never earns a lower
    accessories commission. *)
Theorem accessories_monotone_in_price (s1 s2 : SaleEntry) (a1 a2 : Q) :
  sale_type s1 = sale_type s2 ->
  accessories_price s1 = Some a1 -> accessories_price s2 = Some a2 ->
  a1 <= a2 ->
  accessoriesCommission (calculateCommissions s1)
  <= accessoriesCommission (calculateCommissions s2).
Proof.
  intros T H1 H2 L.
  destruct (accessories_due_dec s1) as [[D1 E1] | [_ E1]]; rewrite E1.
  - destruct (accessories_due_dec s2) as [[_ E2] | [N2 _]];
      [rewrite E2; discriminate|].
    exfalso. apply N2. destruct D1 as (x & Hx & _ & G).
    rewrite H1 in Hx. injection Hx as <-.
    exists a2. split; [exact H2|]. rewrite <- T.
    assert (P : 0 < threshold_of (sale_type s1))
      by (destruct (sale_type s1); reflexivity).
    split; [intros Z; rewrite Z in L; lra | lra].
  - destruct (accessories_flat s2) as [E2 | E2]; rewrite E2; discriminate.
Qed.

Lemma accessories_monotone_in_price_witness :
  accessoriesCommission (calculateCommissions (accessories_sale New 1788))
  <= accessoriesCommission (calculateCommissions (accessories_sale New 1889)).
Proof.
  apply (accessories_monotone_in_price _ _ 1788 1889);
    [reflexivity | reflexivity | reflexivity | discriminate].
Defined.

(** X8: with the same accessories price, a new car never earns a higher
    accessories commission than a used car or a trade-in. *)
Theorem accessories_new_is_strictest (s1 s2 : SaleEntry) :
  sale_type s1 = New ->
  same_optional (accessories_price s1) (accessories_price s2) ->
  accessoriesCommission (calculateCommissions s1)
  <= accessoriesCommission (calculateCommissions s2).
Proof.
  intros T A.
  destruct (accessories_due_dec s1) as [[D1 E1] | [_ E1]]; rewrite E1.
  - destruct (accessories_due_dec s2) as [[_ E2] | [N2 _]];
      [rewrite E2; discriminate|].
    exfalso. apply N2. destruct D1 as (x & Hx & Nx & G).
    rewrite Hx in A. rewrite T in G. cbn in G.
    destruct (accessories_price s2) as [y|] eqn:Hy; cbn in A;
      [|contradiction].
    exists y. split; [exact Hy|].
    split; [now rewrite <- A|].
    rewrite <- A. destruct (sale_type s2); cbn; lra.
  - destruct (accessories_flat s2) as [E2 | E2]; rewrite E2; discriminate.
Qed.

Lemma accessories_new_is_strictest_witness :
  accessoriesCommission (calculateCommissions (accessories_sale New 1500))
  <= accessoriesCommission (calculateCommissions (accessories_sale Used 1500)).
Proof.
  apply (accessories_new_is_strictest (accessories_sale New 1500)
           (accessories_sale Used 1500)); reflexivity.
Defined.

(** X9: a trade-in is paid as a used car: two entries that agree on the
    price fields the calculator reads, one of type 'Used' and the other of
    type 'Trade-In', get equal breakdowns. *)
Theorem trade_in_paid_as_used (s1 s2 : SaleEntry) :
  sale_type s1 = Used -> sale_type s2 = TradeIn ->
  same_number (sale_price s1) (sale_price s2) ->
  same_optional (accessories_price s1) (accessories_price s2) ->
  same_optional (warranty_price s1) (warranty_price s2) ->
  same_optional (warranty_cost s1) (warranty_cost s2) ->
  same_optional (maintenance_price s1) (maintenance_price s2) ->
  calculateCommissions s1 = calculateCommissions s2.
Proof.
  intros T1 T2 Hp Ha Hwp Hwc Hm. unfold same_number in Hp.
  assert (C : carCommission (calculateCommissions s1) =
              carCommission (calculateCommissions s2)).
  { rewrite !carCommission_eq. now rewrite !(ltb_same _ _ _ Hp). }
  assert (A : accessoriesCommission (calculateCommissions s1) =
              accessoriesCommission (calculateCommissions s2)).
  { rewrite !accessoriesCommission_eq, T1, T2.
    destruct (accessories_price s1) as [x|], (accessories_price s2) as [y|];
      cbn in Ha; try contradiction; [|reflexivity].
    rewrite (truthy_same _ _ Ha).
    rewrite (gtb_same (x - threshold_of Used) (y - threshold_of TradeIn) 800);
      [reflexivity | now rewrite Ha]. }
  assert (W : warrantyCommission (calculateCommissions s1) =
              warrantyCommission (calculateCommissions s2)).
  { rewrite !warrantyCommission_eq.
    destruct (warranty_price s1) as [p|], (warranty_price s2) as [p'|];
      cbn in Hwp; try contradiction;
    destruct (warranty_cost s1) as [c|], (warranty_cost s2) as [c'|];
      cbn in Hwc; try contradiction; try reflexivity.
    rewrite (truthy_same _ _ Hwp), (truthy_same _ _ Hwc).
    assert (F : Qfloor ((p - c) / 1000) = Qfloor ((p' - c') / 1000))
      by now rewrite Hwp, Hwc.
    now rewrite F. }
  assert (M : maintenanceCommission (calculateCommissions s1) =
              maintenanceCommission (calculateCommissions s2)).
  { rewrite !maintenanceCommission_eq.
    destruct (maintenance_price s1) as [m|], (maintenance_price s2) as [m'|];
      cbn in Hm; try contradiction; [|reflexivity].
    now rewrite (truthy_same _ _ Hm), (gtb_same _ _ 800 Hm). }
  apply breakdown_ext; try assumption.
  rewrite !totalCommission_eq, C, A, W, M. reflexivity.
Qed.

Lemma trade_in_paid_as_used_witness :
  calculateCommissions (accessories_sale Used 1289)
  = calculateCommissions (accessories_sale TradeIn 1289).
Proof.
  apply (trade_in_paid_as_used (accessories_sale Used 1289)
           (accessories_sale TradeIn 1289));
    try reflexivity; exact I.
Defined.

(** ** The rows of the sales grid *)

Lemma fold_push {A B : Type} (f : A -> B) (l : list A) (acc : list B) :
  fold_left (fun data x => push data (f x)) l acc = (acc ++ map f l)%list.
Proof.
  revert acc. induction l as [|x l IH]; intros acc; cbn.
  - now rewrite app_nil_r.
  - rewrite IH. unfold push. now rewrite <- app_assoc.
Qed.

Lemma gridData_eq (sales : list SaleEntry) (spiffs : list Spiff.SpiffEntry) :
  gridData sales spiffs = (map sale_row sales ++ map spiff_row spiffs)%list.
Proof.
  unfold gridData. now rewrite !fold_push.
Qed.

Lemma in_gridData (sales : list SaleEntry) (spiffs : list Spiff.SpiffEntry)
    (row : Grid.GridRow) :
  In row (gridData sales spiffs) <->
  (exists sale, In sale sales /\ row = sale_row sale) \/
  (exists spiff, In spiff spiffs /\ row = spiff_row spiff).
Proof.
  rewrite gridData_eq, in_app_iff, !in_map_iff.
  split; intros [(x & H1 & H2) | (x & H1 & H2)];
    [left | right | left | right]; exists x; auto.
Qed.

(** X10: the grid has one row per sale followed by one row per spiff, each
    group in the order of its input; handing the rows' [originalData] back
    gives the sales and then the spiffs that were passed in. *)
Theorem gridData_keeps_entries_in_order
    (sales : list SaleEntry) (spiffs : list Spiff.SpiffEntry) :
  List.length (gridData sales spiffs)
  = (List.length sales + List.length spiffs)%nat /\
  map Grid.originalData (gridData sales spiffs)
  = (map inl sales ++ map inr spiffs)%list /\
  map Grid.id (gridData sales spiffs)
  = (map id sales ++ map Spiff.id spiffs)%list.
Proof.
  rewrite gridData_eq.
  split; [now rewrite length_app, !length_map|].
  split; rewrite map_app, !map_map; reflexivity.
Qed.

(** X11: in every row of the grid the flag [isSpiff] tells whether the row
    was built from a spiff; on a sale row the five amounts, the total
    included, are those that [calculateCommissions] returns on that sale,
    and on a spiff row the four components are 0 and the total is the
    spiff's amount. *)
Theorem gridData_amounts
    (sales : list SaleEntry) (spiffs : list Spiff.SpiffEntry)
    (row : Grid.GridRow) :
  In row (gridData sales spiffs) ->
  match Grid.originalData row with
  | inl sale =>
      In sale sales /\ Grid.isSpiff row = false /\
      Grid.carCommission row = carCommission (calculateCommissions sale) /\
      Grid.accessoriesCommission row
      = accessoriesCommission (calculateCommissions sale) /\
      Grid.warrantyCommission row
      = warrantyCommission (calculateCommissions sale) /\
      Grid.maintenanceCommission row
      = maintenanceCommission (calculateCommissions sale) /\
      Grid.totalCommission row
      = totalCommission (calculateCommissions sale)
  | inr spiff =>
      In spiff spiffs /\ Grid.isSpiff row = true /\
      Grid.carCommission row = 0 /\
      Grid.accessoriesCommission row = 0 /\
      Grid.warrantyCommission row = 0 /\
      Grid.maintenanceCommission row = 0 /\
      Grid.totalCommission row = Spiff.amount spiff
  end.
Proof.
  rewrite in_gridData.
  intros [(sale & H & ->) | (spiff & H & ->)]; cbn [sale_row spiff_row
    Grid.originalData Grid.isSpiff Grid.carCommission
    Grid.accessoriesCommission Grid.warrantyCommission
    Grid.maintenanceCommission Grid.totalCommission].
  - repeat (split; [first [exact H | reflexivity]|]). reflexivity.
  - repeat (split; [first [exact H | reflexivity]|]). reflexivity.
Qed.

Lemma gridData_amounts_witness :
  Grid.totalCommission (sale_row full_sale)
  = totalCommission (calculateCommissions full_sale) /\
  Grid.totalCommission (spiff_row sample_spiff) = 150.
Proof.
  split.
  - assert (H : In (sale_row full_sale)
                  (gridData [full_sale] [sample_spiff]))
      by (left; reflexivity).
    exact (proj2 (proj2 (proj2 (proj2 (proj2 (proj2
      (gridData_amounts [full_sale] [sample_spiff] _ H))))))).
  - assert (H : In (spiff_row sample_spiff)
                  (gridData [full_sale] [sample_spiff]))
      by (right; left; reflexivity).
    exact (proj2 (proj2 (proj2 (proj2 (proj2 (proj2
      (gridData_amounts [full_sale] [sample_spiff] _ H))))))).
Defined.

(** X12: a row of the grid is marked shared exactly when it carries a
    [shared_with_email] that is not the empty string; a spiff row carries
    none and is never marked shared. *)
Theorem gridData_shared_flag
    (sales : list SaleEntry) (spiffs : list Spiff.SpiffEntry)
    (row : Grid.GridRow) :
  In row (gridData sales spiffs) ->
  (Grid.shared row = true <->
   exists email, Grid.shared_with_email row = Some email /\
                 email <> EmptyString) /\
  (Grid.isSpiff row = true ->
   Grid.shared row = false /\ Grid.shared_with_email row = None).
Proof.
  rewrite in_gridData.
  intros [(sale & _ & ->) | (spiff & _ & ->)];
    cbn [sale_row spiff_row Grid.shared Grid.shared_with_email Grid.isSpiff].
  - split; [|discriminate].
    destruct (shared_with_email sale) as [[|c e]|]; cbn.
    + split; [discriminate|]. intros (e & [= <-] & N). now contradiction N.
    + split; [|reflexivity]. intros _. exists (String c e). now split.
    + split; [discriminate|]. intros (e & E & _). discriminate.
  - split; [|auto]. split; [discriminate|].
    intros (e & E & _). discriminate.
Qed.

Lemma gridData_shared_flag_witness :
  Grid.shared (sale_row full_sale_other) = true /\
  Grid.shared (spiff_row sample_spiff) = false.
Proof.
  split.
  - apply (proj1 (gridData_shared_flag [full_sale_other] [] _
                    (or_introl eq_refl))).
    exists "sam@example.com"%string. split; [reflexivity | discriminate].
  - apply (proj2 (gridData_shared_flag [] [sample_spiff] _
                    (or_introl eq_refl))). reflexivity.
Defined.

(** ** Looking a user up by email *)

(** Runs one step of a program against an arbitrary service. *)
Ltac run_calls :=
  cbn;
  repeat match goal with
  | |- context [serve ?S ?r ?w] =>
      let d := fresh "d" in
      let e := fresh "e" in
      let w' := fresh "w" in
      destruct (serve S r w) as [[[d [e|]]|e] w']; cbn
  end.

(** X13: [getUserIdFromEmail] never throws, whatever the service answers,
    and never returns the empty string: the result is an identifier that
    is not empty, or null. *)
Theorem getUserIdFromEmail_never_throws
    (S : Service) (email : string) (w : World S) :
  exists r : option string,
    outcome S (getUserIdFromEmail email) w = Returned r /\
    r <> Some EmptyString.
Proof.
  unfold outcome, getUserIdFromEmail. run_calls;
    eexists; (split; [reflexivity|]);
    try discriminate;
    match goal with
    | |- or_null ?d <> _ => destruct d as [[|c t]|]; discriminate
    end.
Qed.

(** X14: [getUserIdFromEmail] always asks the [users] table first, and
    calls the [get_user_id_from_email] procedure exactly when that first
    query fulfilled with an error; a rejected first query is not retried. *)
Theorem getUserIdFromEmail_fallback
    (S : Service) (email : string) (w : World S) :
  requests (trace S (getUserIdFromEmail email) w) =
  users_select_id email ::
  (if errored (fst (serve S (users_select_id email) w))
   then [rpc_get_user_id_from_email email] else []).
Proof.
  unfold trace, getUserIdFromEmail. run_calls; reflexivity.
Qed.

(** X15: when the [users] query fulfils without error the result is the
    [id] of its row, or null when there is no row or the id is empty, and
    nothing is logged; when it fulfils with an error and the procedure
    fails too, the result is null and the procedure's failure is logged
    once. *)
Theorem getUserIdFromEmail_result
    (S : Service) (email : string) (w : World S) :
  let first := serve S (users_select_id email) w in
  let second := serve S (rpc_get_user_id_from_email email) (snd first) in
  (succeeded (fst first) = true ->
   outcome S (getUserIdFromEmail email) w
   = Returned (or_null (payload (fst first))) /\
   effects (trace S (getUserIdFromEmail email) w) = []) /\
  (errored (fst first) = true ->
   forall e, failure (fst second) = Some e ->
   outcome S (getUserIdFromEmail email) w = Returned None /\
   effects (trace S (getUserIdFromEmail email) w)
   = [console_error "Error getting user ID from email:" e]).
Proof.
  unfold outcome, trace, getUserIdFromEmail. cbn.
  destruct (serve S (users_select_id email) w) as [[[d [e|]]|e] w1]; cbn.
  - split; [discriminate|]. intros _ x.
    destruct (serve S (rpc_get_user_id_from_email email) w1)
      as [[[d2 [e2|]]|e2] w2]; cbn; intros [= <-] || discriminate; auto.
  - split; [auto | discriminate].
  - split; discriminate.
Qed.

Lemma getUserIdFromEmail_result_witness :
  outcome service_ok (getUserIdFromEmail "sam@example.com") tt
  = Returned (Some "u-9"%string) /\
  outcome service_denied (getUserIdFromEmail "sam@example.com") tt
  = Returned None.
Proof.
  split.
  - apply (proj1 (getUserIdFromEmail_result service_ok
                    "sam@example.com" tt)). reflexivity.
  - apply (proj2 (getUserIdFromEmail_result service_denied
                    "sam@example.com" tt) eq_refl
             (ServiceError "denied")). reflexivity.
Defined.

(** ** Sharing a sale *)

(** X16: [shareSale] returns [{ success: true }] exactly when the recipient
    lookup fulfils without error with a row, the update of the sale (with
    that row's id, the recipient's email and the status 'pending') fulfils
    without error, and the insertion of the notification for that id
    fulfils without error. *)
Theorem shareSale_success_iff
    (S : Service) (saleId recipientEmail : string) (w : World S) :
  outcome S (shareSale saleId recipientEmail) w
  = Returned {| success := true |}
  <->
  exists (recipient_id : string) (w1 w2 : World S),
    let lookup := serve S (users_select_id recipientEmail) w in
    let update :=
      serve S (sales_update_shared saleId recipientEmail recipient_id
                 pending) w1 in
    let insert :=
      serve S (notifications_insert recipient_id saleId
                 "shared_sale_pending") w2 in
    succeeded (fst lookup) = true /\
    payload (fst lookup) = Some recipient_id /\ snd lookup = w1 /\
    succeeded (fst update) = true /\ snd update = w2 /\
    succeeded (fst insert) = true.
Proof.
  unfold outcome, shareSale. cbn.
  destruct (serve S (users_select_id recipientEmail) w)
    as [[[[rid|] [e|]]|e] w1] eqn:L; cbn;
    try (split; [discriminate | intros (? & ? & ? & A & B & _);
                                cbn in A, B; discriminate]).
  destruct (serve S (sales_update_shared saleId recipientEmail rid pending)
              w1) as [[[d2 [e2|]]|e2] w2] eqn:U; cbn;
    try (split; [discriminate|];
         intros (? & ? & ? & _ & [= <-] & <- & A & _);
         rewrite U in A; cbn in A; discriminate).
  destruct (serve S (notifications_insert rid saleId "shared_sale_pending")
              w2) as [[[d3 [e3|]]|e3] w3] eqn:N; cbn;
    try (split; [discriminate|];
         intros (? & ? & ? & _ & [= <-] & <- & _ & <- & A);
         rewrite U in A; cbn in A; rewrite N in A; cbn in A; discriminate).
  split; [|reflexivity]. intros _.
  exists rid, w1, w2. cbn. rewrite U. cbn. rewrite N. cbn. auto 10.
Qed.

(** X17: when the recipient lookup fulfils with an error, or with no row,
    [shareSale] throws [Error('Recipient not found')] in place of the
    service's error; it has then sent the lookup and nothing else (no
    update of the sale, no notification) and has logged that error once. *)
Theorem shareSale_unknown_recipient
    (S : Service) (saleId recipientEmail : string) (w : World S)
    (r : Response string) (w1 : World S) :
  serve S (users_select_id recipientEmail) w = (Fulfilled r, w1) ->
  error r <> None \/ data r = None ->
  run S (shareSale saleId recipientEmail) w
  = (Threw (JsError "Recipient not found"),
     [Requested (users_select_id recipientEmail);
      Did (console_error "Error sharing sale:"
             (JsError "Recipient not found"))],
     w1).
Proof.
  intros L H. unfold shareSale. cbn. cbn in L. rewrite L. cbn.
  destruct r as [[d|] [e|]]; cbn in *; try reflexivity.
  destruct H as [H | H]; [now contradiction H | discriminate].
Qed.

Lemma shareSale_unknown_recipient_witness :
  run service_denied (shareSale "s-5" "sam@example.com") tt
  = (Threw (JsError "Recipient not found"),
     [Requested (users_select_id "sam@example.com");
      Did (console_error "Error sharing sale:"
             (JsError "Recipient not found"))],
     tt).
Proof.
  apply (shareSale_unknown_recipient service_denied "s-5" "sam@example.com"
           tt (mkResponse None (Some (ServiceError "denied"))) tt).
  - reflexivity.
  - left. discriminate.
Defined.

(** X18: [shareSale] sends its requests in one order and each one only
    after the one before fulfilled without error: the lookup always; the
    update of the sale exactly when the lookup fulfilled without error with
    a row; the insertion of the notification exactly when, besides, the
    update fulfilled without error.  It logs nothing when it returns, and
    when it throws it has logged the thrown value once. *)
Theorem shareSale_trace_shape
    (S : Service) (saleId recipientEmail : string) (w : World S) :
  let t := trace S (shareSale saleId recipientEmail) w in
  let lookup := users_select_id recipientEmail in
  let first := serve S lookup w in
  requests t
  = lookup ::
    match (if succeeded (fst first) then payload (fst first) else None) with
    | Some recipient_id =>
        let update :=
          sales_update_shared saleId recipientEmail recipient_id pending in
        update ::
        (if succeeded (fst (serve S update (snd first)))
         then [notifications_insert recipient_id saleId
                 "shared_sale_pending"]
         else [])
    | None => []
    end /\
  match outcome S (shareSale saleId recipientEmail) w with
  | Returned _ => effects t = []
  | Threw e => effects t = [console_error "Error sharing sale:" e]
  end.
Proof.
  unfold trace, outcome, shareSale. cbn.
  destruct (serve S (users_select_id recipientEmail) w)
    as [[[[rid|] [e|]]|e] w1]; cbn; try (split; reflexivity).
  destruct (serve S (sales_update_shared saleId recipientEmail rid pending)
              w1) as [[[d2 [e2|]]|e2] w2]; cbn; try (split; reflexivity).
  destruct (serve S (notifications_insert rid saleId "shared_sale_pending")
              w2) as [[[d3 [e3|]]|e3] w3]; cbn; split; reflexivity.
Qed.

(** X19: [shareSale] does not undo the update of the sale: when the lookup
    and the update fulfil without error and the insertion of the
    notification fails, the sale has been updated to 'pending', the
    failure of the insertion is thrown, and no further request is sent. *)
Theorem shareSale_notification_failure
    (S : Service) (saleId recipientEmail recipient_id : string)
    (w w1 w2 : World S) (e : exn) :
  let lookup := serve S (users_select_id recipientEmail) w in
  let update :=
    serve S (sales_update_shared saleId recipientEmail recipient_id
               pending) w1 in
  let insert :=
    serve S (notifications_insert recipient_id saleId
               "shared_sale_pending") w2 in
  succeeded (fst lookup) = true ->
  payload (fst lookup) = Some recipient_id -> snd lookup = w1 ->
  succeeded (fst update) = true -> snd update = w2 ->
  failure (fst insert) = Some e ->
  outcome S (shareSale saleId recipientEmail) w = Threw e /\
  requests (trace S (shareSale saleId recipientEmail) w)
  = [users_select_id recipientEmail;
     sales_update_shared saleId recipientEmail recipient_id pending;
     notifications_insert recipient_id saleId "shared_sale_pending"].
Proof.
  unfold outcome, trace, shareSale. cbn.
  destruct (serve S (users_select_id recipientEmail) w)
    as [[[[rid|] [e1|]]|e1] w1']; cbn; try discriminate.
  intros _ [= <-] <-.
  destruct (serve S (sales_update_shared saleId recipientEmail rid pending)
              w1') as [[[d2 [e2|]]|e2] w2']; cbn; try discriminate.
  intros _ <-.
  destruct (serve S (notifications_insert rid saleId "shared_sale_pending")
              w2') as [[[d3 [e3|]]|e3] w3]; cbn; try discriminate;
    intros [= <-]; split; reflexivity.
Qed.

Lemma shareSale_notification_failure_witness :
  outcome service_no_notifications (shareSale "s-5" "sam@example.com") tt
  = Threw (ServiceError "no insert") /\
  requests (trace service_no_notifications
              (shareSale "s-5" "sam@example.com") tt)
  = [users_select_id "sam@example.com";
     sales_update_shared "s-5" "sam@example.com" "u-9" pending;
     notifications_insert "u-9" "s-5" "shared_sale_pending"].
Proof.
  apply (shareSale_notification_failure service_no_notifications
           "s-5" "sam@example.com" "u-9" tt tt tt
           (ServiceError "no insert")); reflexivity.
Defined.

Lemma shareSale_success_iff_witness :
  outcome service_ok (shareSale "s-5" "sam@example.com") tt
  = Returned {| success := true |}.
Proof.
  apply (proj2 (shareSale_success_iff service_ok "s-5" "sam@example.com"
                  tt)).
  exists "u-9"%string, tt, tt. cbn. auto 10.
Defined.

(** ** Answering a shared sale and listing notifications *)

(** X20: [respondToSharedSale] sends exactly one request, the update of
    [shared_status] of that sale to the response, which is never
    'pending'; it returns [{ success: true }] when the update fulfils
    without error, and otherwise logs the failure once and throws it
    unchanged. *)
Theorem respondToSharedSale_single_update
    (S : Service) (saleId : string) (response : SharedResponse)
    (w : World S) :
  let update := sales_update_status saleId (SharedResponse_status response) in
  let t := trace S (respondToSharedSale saleId response) w in
  SharedResponse_status response <> pending /\
  requests t = [update] /\
  match failure (fst (serve S update w)) with
  | None =>
      outcome S (respondToSharedSale saleId response) w
      = Returned {| success := true |} /\ effects t = []
  | Some e =>
      outcome S (respondToSharedSale saleId response) w = Threw e /\
      effects t = [console_error "Error responding to shared sale:" e]
  end.
Proof.
  cbv zeta. split; [destruct response; discriminate|].
  unfold trace, outcome, respondToSharedSale. run_calls; auto.
Qed.

(** X21: [getSharedSaleNotifications] sends the one query for the unread
    notifications of the user; when it fulfils without error the rows are
    returned, an absent [data] giving the empty list, and nothing is
    logged; when it fails the failure is logged once and thrown
    unchanged. *)
Theorem getSharedSaleNotifications_result
    (S : Service) (userId : string) (w : World S) :
  let query := notifications_select_unread userId in
  let t := trace S (getSharedSaleNotifications userId) w in
  requests t = [query] /\
  match failure (fst (serve S query w)) with
  | None =>
      outcome S (getSharedSaleNotifications userId) w
      = Returned (match payload (fst (serve S query w)) with
                  | Some rows => rows
                  | None => []
                  end) /\
      effects t = []
  | Some e =>
      outcome S (getSharedSaleNotifications userId) w = Threw e /\
      effects t = [console_error "Error fetching notifications:" e]
  end.
Proof.
  cbv zeta. unfold trace, outcome, getSharedSaleNotifications.
  run_calls; auto.
Qed.

(** ** Splitting a string *)

Lemma split_not_nil (sep : ascii) (s : string) : split sep s <> [].
Proof.
  destruct s as [|c s]; cbn; [discriminate|].
  destruct (Ascii.eqb c sep); [discriminate|].
  destruct (split sep s); discriminate.
Qed.

(** [split] gives one piece more than there are separators. *)
Lemma split_length (sep : ascii) (s : string) :
  List.length (split sep s) = S (occurrences sep s).
Proof.
  induction s as [|c s IH]; cbn; [reflexivity|].
  destruct (Ascii.eqb c sep); cbn; [now rewrite IH|].
  destruct (split sep s) as [|p ps] eqn:E; [|exact IH].
  now apply split_not_nil in E.
Qed.

Lemma join_cons (sep : ascii) (piece : string) (more : list string) :
  more <> [] ->
  join sep (piece :: more) = (piece ++ String sep (join sep more))%string.
Proof. destruct more; [contradiction | reflexivity]. Qed.

Lemma join_head (sep c : ascii) (piece : string) (more : list string) :
  join sep (String c piece :: more) = String c (join sep (piece :: more)).
Proof. destruct more; reflexivity. Qed.

(** Joining the pieces with the separator gives the string back. *)
Lemma join_split (sep : ascii) (s : string) : join sep (split sep s) = s.
Proof.
  induction s as [|c s IH]; cbn [split]; [reflexivity|].
  destruct (Ascii.eqb c sep) eqn:E.
  - apply Ascii.eqb_eq in E. subst c.
    rewrite join_cons by apply split_not_nil. now rewrite IH.
  - destruct (split sep s) as [|p ps] eqn:P;
      [now apply split_not_nil in P|].
    now rewrite join_head, IH.
Qed.

(** ** The spiff form *)

(** The note guard of the form counts the spaces of the note. *)
Lemma note_guard (note : string) :
  truthy_string note && (40 <? List.length (split " " note))%nat
  = (40 <=? occurrences " " note)%nat.
Proof.
  rewrite split_length. destruct note as [|c note]; [reflexivity|].
  reflexivity.
Qed.

Lemma truthy_string_true (s : string) :
  truthy_string s = true <-> s <> EmptyString.
Proof. destruct s; cbn; split; congruence. Qed.

(** X22: the spiff form sends its insertion exactly when the amount and
    the date are not empty and the note holds fewer than 40 space
    characters.  With an empty amount or date it only shows 'Amount and
    date are required'; otherwise, with 40 spaces or more in the note
    (however many words they separate), it only shows 'Note cannot exceed
    40 words'. *)
Theorem SpiffForm_sends_iff_valid
    (S : Service) (user_id : option string)
    (amount note imageUrl date : string) (w : World S) :
  let t := trace S (SpiffForm_handleSubmit user_id amount note imageUrl date)
             w in
  (amount <> EmptyString -> date <> EmptyString ->
   (occurrences " " note < 40)%nat ->
   requests t = [spiffs_insert user_id amount note imageUrl date]) /\
  (amount = EmptyString \/ date = EmptyString ->
   t = [Did preventDefault;
        Did (toast_error "Amount and date are required")]) /\
  (amount <> EmptyString -> date <> EmptyString ->
   (40 <= occurrences " " note)%nat ->
   t = [Did preventDefault; Did (toast_error "Note cannot exceed 40 words")]).
Proof.
  cbv zeta. unfold trace, SpiffForm_handleSubmit. rewrite note_guard.
  destruct (truthy_string amount) eqn:A; cbn [negb orb].
  - destruct (truthy_string date) eqn:D; cbn [negb].
    + destruct (40 <=? occurrences " " note)%nat eqn:N.
      * apply Nat.leb_le in N.
        split; [intros; lia|]. split; [|reflexivity].
        apply truthy_string_true in A, D. intros [-> | ->]; contradiction.
      * apply Nat.leb_gt in N.
        split; [|split; [|intros; lia]].
        -- intros _ _ _. run_calls; reflexivity.
        -- apply truthy_string_true in A, D.
           intros [-> | ->]; contradiction.
    + destruct date; [|discriminate].
      split; [intros _ F; now contradiction F|].
      split; [reflexivity | intros _ F; now contradiction F].
  - destruct amount; [|discriminate].
    split; [intros F; now contradiction F|].
    split; [reflexivity | intros F; now contradiction F].
Qed.

Lemma SpiffForm_sends_iff_valid_witness :
  requests (trace service_ok
              (SpiffForm_handleSubmit (Some "u-1"%string) "150"
                 "won the monthly contest" "" "2024-01-20") tt)
  = [spiffs_insert (Some "u-1"%string) "150" "won the monthly contest" ""
       "2024-01-20"] /\
  trace service_ok
    (SpiffForm_handleSubmit (Some "u-1"%string) "" "" "" "2024-01-20") tt
  = [Did preventDefault; Did (toast_error "Amount and date are required")].
Proof.
  split.
  - apply (proj1 (SpiffForm_sends_iff_valid service_ok (Some "u-1"%string)
                    "150" "won the monthly contest" "" "2024-01-20" tt));
      [discriminate | discriminate | cbn; lia].
  - apply (proj1 (proj2 (SpiffForm_sends_iff_valid service_ok
                           (Some "u-1"%string) "" "" "" "2024-01-20" tt))).
    left. reflexivity.
Defined.

(** X23: the spiff form handler never throws; whenever it has set
    [isSubmitting] to true its last effect sets it back to false; and it
    closes the form exactly when it sent the insertion and the insertion
    fulfilled without error. *)
Theorem SpiffForm_submitting_is_reset
    (S : Service) (user_id : option string)
    (amount note imageUrl date : string) (w : World S) :
  let p := SpiffForm_handleSubmit user_id amount note imageUrl date in
  let insert := spiffs_insert user_id amount note imageUrl date in
  outcome S p w = Returned tt /\
  (In (setIsSubmitting true) (effects (trace S p w)) ->
   last (effects (trace S p w)) preventDefault = setIsSubmitting false) /\
  (In onClose (effects (trace S p w)) <->
   requests (trace S p w) = [insert] /\
   succeeded (fst (serve S insert w)) = true).
Proof.
  cbv zeta. unfold outcome, trace, SpiffForm_handleSubmit.
  rewrite note_guard.
  destruct (negb (truthy_string amount) || negb (truthy_string date)).
  { cbn. split; [reflexivity|]. split; [intuition discriminate|].
    split; [intuition discriminate | intros [? _]; discriminate]. }
  destruct (40 <=? occurrences " " note)%nat.
  { cbn. split; [reflexivity|]. split; [intuition discriminate|].
    split; [intuition discriminate | intros [? _]; discriminate]. }
  run_calls; (split; [reflexivity|]); (split; [reflexivity|]);
    (split; [intuition discriminate | intros [_ ?]; auto 10; discriminate]).
Qed.

Lemma SpiffForm_submitting_is_reset_witness :
  last (effects (trace service_denied
                   (SpiffForm_handleSubmit None "150" "" "" "2024-01-20") tt))
       preventDefault
  = setIsSubmitting false.
Proof.
  apply (proj1 (proj2 (SpiffForm_submitting_is_reset service_denied None
                         "150" "" "" "2024-01-20" tt))).
  cbn. auto.
Defined.

(** ** The trade-in form *)

(** X24: submitting the trade-in form with an amount while no sale is
    being edited sends no request: reading the id raises a [TypeError]
    that the handler catches, logs and shows as a toast; neither
    [onTradeInAdded] nor [onClose] is called, and [isSubmitting] is set
    back to false. *)
Theorem TradeInForm_without_sale
    (S : Service) (engine_text amount : string) (w : World S) :
  amount <> EmptyString ->
  run S (TradeInForm_handleSubmit engine_text None amount) w
  = (Returned tt,
     [Did preventDefault;
      Did (setIsSubmitting true);
      Did (console_error "Error updating trade-in commission:"
             (TypeError engine_text));
      Did (toast_error
             (message_or (TypeError engine_text)
                "Error updating trade-in commission"));
      Did (setIsSubmitting false)],
     w).
Proof.
  intros A. apply truthy_string_true in A.
  unfold TradeInForm_handleSubmit. rewrite A. reflexivity.
Qed.

Lemma TradeInForm_without_sale_witness :
  requests (trace service_ok
              (TradeInForm_handleSubmit "Cannot read properties of null"
                 None "250") tt) = [] /\
  outcome service_ok
    (TradeInForm_handleSubmit "Cannot read properties of null" None "250") tt
  = Returned tt.
Proof.
  unfold trace, outcome.
  rewrite (TradeInForm_without_sale service_ok
             "Cannot read properties of null" "250" tt); [|discriminate].
  split; reflexivity.
Defined.

(** X25: the trade-in form handler never throws; it sends the update of
    [trade_in_commission] exactly when the amount is not empty and a sale
    is being edited, and it calls [onTradeInAdded] and then closes the form
    exactly when that update fulfilled without error; whenever it has set
    [isSubmitting] to true its last effect sets it back to false. *)
Theorem TradeInForm_closes_on_success
    (S : Service) (engine_text : string) (editSale : option string)
    (amount : string) (w : World S) :
  let p := TradeInForm_handleSubmit engine_text editSale amount in
  outcome S p w = Returned tt /\
  requests (trace S p w)
  = match editSale with
    | Some id =>
        if truthy_string amount then [sales_update_trade_in id amount]
        else []
    | None => []
    end /\
  (In onClose (effects (trace S p w)) <->
   In onTradeInAdded (effects (trace S p w))) /\
  (In onClose (effects (trace S p w)) <->
   exists id, editSale = Some id /\ amount <> EmptyString /\
              succeeded (fst (serve S (sales_update_trade_in id amount) w))
              = true) /\
  (In (setIsSubmitting true) (effects (trace S p w)) ->
   last (effects (trace S p w)) preventDefault = setIsSubmitting false).
Proof.
  cbv zeta. unfold outcome, trace, TradeInForm_handleSubmit.
  destruct amount as [|c amount]; cbn [truthy_string negb].
  { cbn. split; [reflexivity|].
    split; [destruct editSale; reflexivity|].
    split; [intuition discriminate|].
    split; [|intuition discriminate].
    split; [intuition discriminate|].
    intros (? & _ & F & _). now contradiction F. }
  destruct editSale as [id|].
  - cbn.
    destruct (serve S (sales_update_trade_in id (String c amount)) w)
      as [[[d [e|]]|e] w1] eqn:E; cbn;
      (split; [reflexivity|]); (split; [reflexivity|]);
      (split; [intuition discriminate|]);
      (split; [|intuition discriminate]);
      split; try (intuition discriminate);
      try (intros (? & [= <-] & _ & F); rewrite E in F; discriminate).
    intros _. exists id. rewrite E. repeat split. discriminate.
  - cbn. split; [reflexivity|]. split; [reflexivity|].
    split; [intuition discriminate|].
    split; [|intuition discriminate].
    split; [intuition discriminate|].
    intros (? & F & _). discriminate.
Qed.

Lemma TradeInForm_closes_on_success_witness :
  last (effects (trace service_ok
                   (TradeInForm_handleSubmit "" (Some "s-5"%string) "250")
                   tt)) preventDefault
  = setIsSubmitting false.
Proof.
  apply (proj2 (proj2 (proj2 (proj2
    (TradeInForm_closes_on_success service_ok "" (Some "s-5"%string) "250"
       tt))))).
  cbn. auto.
Defined.

(** ** The dashboard *)

(** X26: [fetchSales] never throws.  Without a session user id it does
    nothing at all: no request is sent and [loading] is not cleared.  With
    one it sends the month's query for that user, and then either stores
    the rows (the empty list for an absent [data]) or, on a failure, logs it
    and shows 'Error fetching sales data' without touching the stored
    sales; in both cases its last effect clears [loading]. *)
Theorem fetchSales_behaviour
    (S : Service) (session_user_id : option string)
    (startDate endDate : string) (w : World S) :
  let p := fetchSales session_user_id startDate endDate in
  outcome S p w = Returned tt /\
  (or_null session_user_id = None -> trace S p w = []) /\
  (forall user, or_null session_user_id = Some user ->
     let query := sales_select_month user startDate endDate in
     requests (trace S p w) = [query] /\
     effects (trace S p w)
     = match failure (fst (serve S query w)) with
       | None =>
           [setSales (match payload (fst (serve S query w)) with
                      | Some rows => rows
                      | None => []
                      end);
            setLoading false]
       | Some e =>
           [console_error "Error fetching sales data:" e;
            toast_error "Error fetching sales data";
            setLoading false]
       end).
Proof.
  cbv zeta. unfold outcome, trace, fetchSales.
  destruct (or_null session_user_id) as [user|].
  - split; [run_calls; reflexivity|].
    split; [discriminate|].
    intros ? [= <-]. run_calls; split; reflexivity.
  - cbn. split; [reflexivity|]. split; [reflexivity | discriminate].
Qed.

Lemma fetchSales_behaviour_witness :
  trace service_ok (fetchSales None "2024-01-01" "2024-01-31") tt = [] /\
  effects (trace service_ok
             (fetchSales (Some "u-1"%string) "2024-01-01" "2024-01-31") tt)
  = [setSales []; setLoading false].
Proof.
  split.
  - apply (proj1 (proj2 (fetchSales_behaviour service_ok None
                           "2024-01-01" "2024-01-31" tt))). reflexivity.
  - apply (proj2 (proj2 (fetchSales_behaviour service_ok
                           (Some "u-1"%string) "2024-01-01" "2024-01-31"
                           tt)) "u-1"%string eq_refl).
Defined.

(** X27: when the user cancels the confirmation dialog, [handleDelete]
    does nothing more: no request is sent, nothing is shown or logged. *)
Theorem handleDelete_cancelled
    (S : Service) (session_user_id : option string)
    (startDate endDate id : string) (type : ItemKind) (w w1 : World S) :
  let question :=
    ("Are you sure you want to delete this " ++ ItemKind_text type ++ "?")
      %string in
  answer S question w = (false, w1) ->
  run S (handleDelete session_user_id startDate endDate id type) w
  = (Returned tt, [Asked question], w1).
Proof.
  cbv zeta. intros H. unfold handleDelete. cbn [bind window_confirm run].
  rewrite H. reflexivity.
Qed.

Lemma handleDelete_cancelled_witness :
  run service_denied
    (handleDelete (Some "u-1"%string) "2024-01-01" "2024-01-31" "s-5"
       kind_sale) tt
  = (Returned tt,
     [Asked "Are you sure you want to delete this sale?"], tt).
Proof.
  apply (handleDelete_cancelled service_denied (Some "u-1"%string)
           "2024-01-01" "2024-01-31" "s-5" kind_sale tt tt).
  reflexivity.
Defined.

(** X28: once confirmed, [handleDelete] never throws; it deletes from
    'sales' for a sale and from 'spiffs' for a spiff, and it reloads the
    list of that same kind, and only that one, exactly when the deletion
    fulfilled without error and the session has a user id. *)
Theorem handleDelete_confirmed
    (S : Service) (session_user_id : option string)
    (startDate endDate id : string) (type : ItemKind) (w w1 : World S) :
  let question :=
    ("Are you sure you want to delete this " ++ ItemKind_text type ++ "?")
      %string in
  let p := handleDelete session_user_id startDate endDate id type in
  let deletion :=
    table_delete (match type with
                  | kind_sale => "sales"
                  | kind_spiff => "spiffs"
                  end) id in
  answer S question w = (true, w1) ->
  outcome S p w = Returned tt /\
  requests (trace S p w)
  = deletion ::
    match failure (fst (serve S deletion w1)), or_null session_user_id with
    | None, Some user =>
        [match type with
         | kind_sale => sales_select_month user startDate endDate
         | kind_spiff => spiffs_select_month user startDate endDate
         end]
    | _, _ => []
    end.
Proof.
  cbv zeta. intros H. unfold outcome, trace, handleDelete.
  cbn [bind window_confirm run]. rewrite H.
  unfold fetchSales, fetchSpiffs.
  destruct type; destruct (or_null session_user_id) as [user|];
    run_calls; split; reflexivity.
Qed.

Lemma handleDelete_confirmed_witness :
  requests (trace service_ok
              (handleDelete (Some "u-1"%string) "2024-01-01" "2024-01-31"
                 "p-1" kind_spiff) tt)
  = [table_delete "spiffs" "p-1";
     spiffs_select_month "u-1" "2024-01-01" "2024-01-31"].
Proof.
  apply (handleDelete_confirmed service_ok (Some "u-1"%string)
           "2024-01-01" "2024-01-31" "p-1" kind_spiff tt tt).
  reflexivity.
Defined.


(** ** Double precision against exact arithmetic

    On whole amounts the double-precision calculator returns the amounts of
    the exact one, up to the bound of the statements above. *)

Example f64_agrees_at_500_1000 :
  F64.exact_breakdown
    (F64.calculateCommissions (F64.warranty_sale F64.d_500 F64.d_1000))
  = Some (amounts (calculateCommissions (warranty_sale 500 1000))).
Proof. vm_compute. reflexivity. Qed.

Example f64_agrees_at_2500_500 :
  F64.exact_breakdown
    (F64.calculateCommissions (F64.warranty_sale F64.d_2500 F64.d_500))
  = Some (amounts (calculateCommissions (warranty_sale 2500 500))).
Proof. vm_compute. reflexivity. Qed.

Example f64_agrees_below_bound :
  F64.exact_breakdown
    (F64.calculateCommissions
       (F64.warranty_sale F64.d_9007199254740000 F64.d_1))
  = Some (amounts (calculateCommissions (warranty_sale 9007199254740000 1)))
  /\
  F64.exact_breakdown
    (F64.calculateCommissions
       (F64.warranty_sale F64.d_1 F64.d_9007199254740000))
  = Some (amounts (calculateCommissions (warranty_sale 1 9007199254740000))).
Proof. split; vm_compute; reflexivity. Qed.

Example f64_floor_rounds_down :
  F64.exact (F64.Math_floor (F64.of_integer true (-1))) = Some (-1) /\
  F64.exact
    (F64.warrantyCommission
       (F64.calculateCommissions (F64.warranty_sale F64.d_500 F64.d_1000)))
  = Some (-100).
Proof. split; vm_compute; reflexivity. Qed.

Example f64_agrees_on_whole_samples :
  forallb (fun pc => agree_on_whole (fst pc) (snd pc)) whole_samples = true.
Proof. vm_compute. reflexivity. Qed.
